(** * The thermal hotspot analysis route

    A shallow embedding of the [POST] handler of the hotspot analysis
    route (rate limiter, input validation, thermal pattern detector,
    inference post-processing, fallback and audit trail), together with
    the properties stated about it.

    Conventions of the embedding.
    - [Date.now()] values and byte counts are integers ([Z]).
    - Where the handler adds and divides numbers one after the other (the
      colour variance of the samples, the total area of the hotspots), they
      are binary64 numbers ([spec_float], precision 53, exponents below
      1024) and every operation is the rounded one of IEEE 754, [NaN] and
      the infinities included.
    - A number that is only passed on, compared or divided once (a field of
      the inference answer, the normalised confidence, a bias fraction, a
      feature of the image) is kept as the rational it denotes ([Q]);
      [jsnum] adds [NaN] as [None].
    - The services the handler calls (the clock, the UUID generator, the
      multipart parser, the image decoder and the inference service) are
      given by their results, collected in the record [Env].
    - Console output and the inference call are recorded, in order, in the
      list of [Event]s of the handler's outcome. *)

From Stdlib Require Import QArith Qround Lqa Ascii String.
From Corelib Require Import SpecFloat.
From stdpp Require Import gmap strings list fin_maps pretty.

Local Open Scope Z_scope.

(** ** Enterprise-grade constants *)

Definition MAX_FILE_SIZE : Z := 50 * 1024 * 1024.
Definition ALLOWED_FORMATS : list string := ["jpeg"; "jpg"; "png"; "tiff"; "bmp"]%string.
Definition MAX_IMAGE_DIMENSION : Z := 8192.
Definition REQUEST_TIMEOUT : Z := 30000.
Definition RATE_LIMIT : Z := 100.
Definition RATE_WINDOW : Z := 3600000.

(** ** JavaScript arithmetic used by the handler *)

(** [Math.round]: the nearest integer, ties towards plus infinity. *)
Definition Math_round (q : Q) : Z := Qfloor (q + (1 # 2)).

(** [Math.ceil]. *)
Definition Math_ceil (q : Q) : Z := Qceiling q.

(** Truthiness of a number: everything but zero ([NaN] does not occur among
    rationals). *)
Definition truthy (q : Q) : bool := negb (Qeq_bool q 0).

(** [a || d] for an optional numeric field [a] and a default [d]. *)
Definition num_or (a : option Q) (d : Q) : Q :=
  match a with
  | Some q => if truthy q then q else d
  | None => d
  end.

(** [a || d] for an optional text field. *)
Definition str_or (a : option string) (d : string) : string :=
  match a with
  | Some s => if String.eqb s EmptyString then d else s
  | None => d
  end.

(** [q1 > q2] on rationals, as a boolean. *)
Definition Qgtb (a b : Q) : bool := negb (Qle_bool a b).
Definition Qltb (a b : Q) : bool := negb (Qle_bool b a).

(** ** Binary64 numbers *)

(** The arithmetic of JavaScript numbers: the operations of IEEE 754 on
    binary64, rounding to nearest, ties to even. *)
Definition b64_add : spec_float → spec_float → spec_float := SFadd 53 1024.
Definition b64_sub : spec_float → spec_float → spec_float := SFsub 53 1024.
Definition b64_mul : spec_float → spec_float → spec_float := SFmul 53 1024.
Definition b64_div : spec_float → spec_float → spec_float := SFdiv 53 1024.

(** [a > b]; it does not hold when either side is [NaN]. *)
Definition b64_gt (a b : spec_float) : bool := SFltb b a.

(** The binary64 number of an integer (the nearest one, past [2^53]). *)
Definition b64_of_Z (z : Z) : spec_float := binary_normalize 53 1024 z 0 false.

(** The binary64 number nearest to a rational: the correctly rounded
    quotient of its numerator by its denominator.  On the rational a
    binary64 number denotes it gives that number back. *)
Definition b64_of_Q (q : Q) : spec_float :=
  match Qnum q with
  | Z0 => S754_zero false
  | Zpos n => b64_div (S754_finite false n 0) (S754_finite false (Qden q) 0)
  | Zneg n => b64_div (S754_finite true n 0) (S754_finite false (Qden q) 0)
  end.

(** The rational a finite binary64 number denotes. *)
Definition b64_value (x : spec_float) : option Q :=
  match x with
  | S754_zero _ => Some 0%Q
  | S754_finite s m e =>
      Some ((if s then - inject_Z (Z.pos m) else inject_Z (Z.pos m)) * 2 ^ e)%Q
  | S754_infinity _ | S754_nan => None
  end.

(** [Math.round] of a binary64 number.  The result is [None] when the number
    is not finite: [Math.round] gives it back and [JSON.stringify] writes it
    as [null]. *)
Definition b64_round (x : spec_float) : option Z := Math_round <$> b64_value x.

(** [Math.PI] *)
Definition Math_PI : spec_float := S754_finite false 7074237752028440 (-51).

(** ** Rate limiting store *)

Record RateEntry := { count : Z; resetTime : Z }.

Inductive RateDecision :=
| Rejected (retryAfter : Z)
| Proceed.

(** The rate limiting check at the head of the handler.  The entry object
    held by the map is updated in place by [userLimit.count++], which is the
    same as storing the incremented entry under the key. *)
Definition rate_limit_check (store : gmap string RateEntry) (rateLimitKey : string) (now : Z)
  : RateDecision * gmap string RateEntry :=
  match store !! rateLimitKey with
  | Some userLimit =>
      if (resetTime userLimit >? now) && (count userLimit >=? RATE_LIMIT)
      then (Rejected (Math_ceil (inject_Z (resetTime userLimit - now) / 1000)), store)
      else if resetTime userLimit <=? now
      then (Proceed, <[rateLimitKey := {| count := 1; resetTime := now + RATE_WINDOW |}]> store)
      else (Proceed, <[rateLimitKey := {| count := count userLimit + 1;
                                          resetTime := resetTime userLimit |}]> store)
  | None =>
      (Proceed, <[rateLimitKey := {| count := 1; resetTime := now + RATE_WINDOW |}]> store)
  end.

(** ** The thermal pattern detector *)

(** A JavaScript number that may be [NaN] ([None]). *)
Definition jsnum : Type := option Q.

Definition js_gt (a : jsnum) (c : Q) : bool :=
  match a with Some q => Qgtb q c | None => false end.

Definition js_lt (a : jsnum) (c : Q) : bool :=
  match a with Some q => Qltb q c | None => false end.

(** A binary64 number as the [jsnum] it is compared as: the rational it
    denotes, and [None] for [NaN].  An infinity is kept as [2^1024] with its
    sign, which lies beyond every binary64 number, so that its comparisons
    with them come out as in JavaScript. *)
Definition jsnum_of (x : spec_float) : jsnum :=
  match x with
  | S754_infinity s => Some (if s then - 2 ^ 1024 else 2 ^ 1024)%Q
  | _ => b64_value x
  end.

(** The raw pixel buffer and the [info] object of [sharp(buffer).raw()]. *)
Record RawImage := {
  pixelArray : list Byte.byte;
  info_width : nat;
  info_height : nat;
  info_channels : nat
}.

(** A quantised channel, [Math.floor(v / 32)]; [None] is the [NaN] got from
    an [undefined] read past the end of the buffer. *)
Definition Level : Type := option N.

(** The key [`${r}-${g}-${b}`] of the colour histogram.  The three levels
    determine the text and are read back from it by
    [key.split('-').map(Number)], so the key is kept as the triple. *)
Definition ColorKey : Type := (Level * Level * Level)%type.

(** [pixelArray[idx]] *)
Definition read_channel (pixelArray : list Byte.byte) (idx : nat) : option N :=
  Byte.to_N <$> pixelArray !! idx.

Definition level_of (v : option N) : Level := (λ n, n `div` 32)%N <$> v.

(** A channel as it enters the arithmetic: the number read, and [NaN] for
    an [undefined] read. *)
Definition chan_num (v : option N) : spec_float :=
  match v with
  | Some n => b64_of_Z (Z.of_N n)
  | None => S754_nan
  end.

(** [Math.abs(r - gray) + Math.abs(g - gray) + Math.abs(b - gray)] with
    [gray = (r + g + b) / 3]. *)
Definition pixel_variance (r g b : option N) : spec_float :=
  let r := chan_num r in
  let g := chan_num g in
  let b := chan_num b in
  let gray := b64_div (b64_add (b64_add r g) b) (b64_of_Z 3) in
  b64_add (b64_add (SFabs (b64_sub r gray)) (SFabs (b64_sub g gray)))
          (SFabs (b64_sub b gray)).

(** The positions [0, 20, 40, ...] below [n] visited by
    [for (let i = 0; i < n; i += 20)]. *)
Definition stride_positions (n : nat) : list nat :=
  (λ i, 20 * i)%nat <$> seq 0 ((n + 19) `div` 20)%nat.

Record SampleState := {
  colorHistogram : gmap ColorKey N;
  totalPixels : nat;
  colorVariance : spec_float
}.

Definition sample_init : SampleState :=
  {| colorHistogram := ∅; totalPixels := 0%nat; colorVariance := S754_zero false |}.

(** The body of the sampling loop at column [x] of row [y]. *)
Definition sample_pixel (img : RawImage) (y : nat) (s : SampleState) (x : nat) : SampleState :=
  let idx := ((y * info_width img + x) * info_channels img)%nat in
  let r := read_channel (pixelArray img) idx in
  let g := read_channel (pixelArray img) (idx + 1) in
  let b := read_channel (pixelArray img) (idx + 2) in
  let colorKey := (level_of r, level_of g, level_of b) in
  {| colorHistogram :=
       <[colorKey := (default 0 (colorHistogram s !! colorKey) + 1)%N]> (colorHistogram s);
     totalPixels := S (totalPixels s);
     colorVariance := b64_add (colorVariance s) (pixel_variance r g b) |}.

Definition sample_row (img : RawImage) (s : SampleState) (y : nat) : SampleState :=
  foldl (sample_pixel img y) s (stride_positions (info_width img)).

Definition sample_image (img : RawImage) : SampleState :=
  foldl (sample_row img) sample_init (stride_positions (info_height img)).

(** The derived features of a sampled image. *)
Record Features := {
  uniqueColors : nat;
  avgColorVariance : jsnum;
  redBias : Q;
  blueBias : Q
}.

Definition level_gt (a b : Level) : bool :=
  match a, b with Some x, Some y => (y <? x)%N | _, _ => false end.

Definition red_dominant (key : ColorKey) : bool :=
  let '(r, g, b) := key in level_gt r g && level_gt r b.

Definition blue_dominant (key : ColorKey) : bool :=
  let '(r, g, b) := key in level_gt b r && level_gt b g.

Definition histogram_keys (h : gmap ColorKey N) : list ColorKey := (map_to_list h).*1.

(** The share of the histogram keys that satisfy [p]; it is taken only when
    [colorVariance > 0], and is [0] otherwise.  The share is kept as the
    exact fraction: the handler only compares it with 0.3 and logs it. *)
Definition bias (p : ColorKey → bool) (s : SampleState) : Q :=
  if b64_gt (colorVariance s) (S754_zero false)
  then (inject_Z (Z.of_nat (length (filter (λ k, p k = true) (histogram_keys (colorHistogram s)))))
        / inject_Z (Z.of_nat (size (colorHistogram s))))%Q
  else 0%Q.

(** [colorVariance / totalPixels]; without any sample both are [0] and the
    quotient is [NaN]. *)
Definition average (s : SampleState) : spec_float :=
  b64_div (colorVariance s) (b64_of_Z (Z.of_nat (totalPixels s))).

Definition features_of (s : SampleState) : Features :=
  {| uniqueColors := size (colorHistogram s);
     avgColorVariance := jsnum_of (average s);
     redBias := bias red_dominant s;
     blueBias := bias blue_dominant s |}.

Definition nat_gt (n : nat) (c : nat) : bool := (c <? n)%nat.
Definition nat_lt (n : nat) (c : nat) : bool := (n <? c)%nat.

Definition hasHighColorVariance (f : Features) : bool := js_gt (avgColorVariance f) 50.
Definition hasModerateColors (f : Features) : bool :=
  nat_gt (uniqueColors f) 50 && nat_lt (uniqueColors f) 300.
Definition hasColorGradient (f : Features) : bool :=
  nat_gt (uniqueColors f) 100 && js_gt (avgColorVariance f) 100.
Definition hasThermalBias (f : Features) : bool :=
  Qgtb (redBias f) 0.3 || Qgtb (blueBias f) 0.3.

Definition thermalColorPattern (f : Features) : bool :=
  (hasThermalBias f && hasModerateColors f)
  || (hasColorGradient f && hasHighColorVariance f)
  || (nat_lt (uniqueColors f) 50 && js_lt (avgColorVariance f) 10)
  || (js_gt (avgColorVariance f) 150 && nat_gt (uniqueColors f) 100).

Definition isThermalImage (demoMode : bool) (imageType : string) (f : Features) : bool :=
  demoMode
  || (String.eqb imageType "thermal" && thermalColorPattern f)
  || (negb (String.eqb imageType "visual") && thermalColorPattern f).

(** ** Requests, collaborators and responses *)

Inductive Result (A : Type) :=
| Ok (a : A)
| Throws (message : string).
Arguments Ok {A} a.
Arguments Throws {A} message.

(** The uploaded [File]; [file_arrayBuffer] is the outcome of the race between
    [file.arrayBuffer()] and the [REQUEST_TIMEOUT] timer. *)
Record File := {
  file_name : string;
  file_size : Z;
  file_type : string;
  file_arrayBuffer : Result (list Byte.byte)
}.

(** The fields read from the form; [form_image] is [None] when the field is
    missing or is not a [File]. *)
Record FormData := {
  form_image : option File;
  form_imageType : option string;
  form_demoMode : option string
}.

Record Request := {
  x_forwarded_for : option string;
  formData : Result FormData
}.

(** [sharp(buffer).metadata()] *)
Record Metadata := {
  meta_width : option Z;
  meta_height : option Z;
  meta_format : option string;
  meta_channels : option Z
}.

(** A hotspot as the inference service gives it: every field is optional. *)
Record RawHotspot := {
  raw_x : option Q;
  raw_y : option Q;
  raw_radius : option Q;
  raw_intensity : option Q;
  raw_area : option Q;
  raw_description : option string
}.

(** The parsed answer of the inference service. *)
Record VisionResult := {
  vr_hotspots : option (list RawHotspot);
  vr_severity : option string;
  vr_maxTemperature : option Q;
  vr_analysis : option string;
  vr_recommendations : option (list string);
  vr_confidence : option Q
}.

(** What the handler reads from outside.  [vision] is the outcome of the
    whole guarded block around the inference call: [Throws] stands for any
    exception raised in it (the call itself, reading the first choice,
    [JSON.parse], reading the parsed value). *)
Record Env := {
  startTime : Z;
  requestId : string;
  timestamp : string;
  now : Z;
  sharp_metadata : list Byte.byte → Result Metadata;
  sharp_raw : list Byte.byte → Result RawImage;
  vision : list Byte.byte → Result VisionResult;
  responseTime : Z;
  responseTimestamp : string;
  auditTime : Z
}.

Record Hotspot := {
  h_x : Z;
  h_y : Z;
  h_radius : Z;
  h_intensity : Z;
  h_area : Q;
  h_description : string
}.

(** The [metadata] object of the two short answers (not thermal, inference
    unavailable). *)
Record ShortMetadata := {
  sm_totalHotspots : Z;
  sm_maxTemperature : option Q;
  sm_affectedArea : Z;
  sm_message : string;
  sm_error : option string
}.

(** The [metadata] object of the full answer, after the inference metadata
    has been spread over it.  [fm_affectedArea] is [None] for a [null] in the
    JSON text. *)
Record FullMetadata := {
  fm_totalHotspots : nat;
  fm_maxTemperature : option Q;
  fm_affectedArea : option Z;
  fm_imageType : string;
  fm_dimensions : Z * Z;
  fm_processingTime : string;
  fm_timestamp : string;
  fm_analysis : option string;
  fm_recommendations : option (list string);
  fm_aiModel : option string;
  fm_confidence : option Q
}.

Inductive Body :=
| RateLimitBody (error requestId : string) (retryAfter : Z)
| ErrorBody (error requestId : string)
| FailureBody (error requestId support : string)
| ShortBody (hotspots : list Hotspot) (severity : string) (confidence : Q)
            (metadata : ShortMetadata)
| FullBody (requestId severity : string) (hotspots : list Hotspot) (confidence : Q)
           (metadata : FullMetadata).

(** [NextResponse.json(body, { status })]; the status is 200 when none is
    given. *)
Record Response := { status : Z; body : Body }.

Definition json (body : Body) : Response := {| status := 200; body := body |}.
Definition json_status (body : Body) (status : Z) : Response :=
  {| status := status; body := body |}.

(** ** The audit record *)

Inductive AuditStatus := success | failure.

Inductive DetailValue :=
| DText (s : string)
| DNumber (n : Z)
| DFileInfo (name : string) (size : Z) (type : string) (imageType : string) (demoMode : bool)
| DImageMetadata (width height : Z) (format : option string) (channels : option Z)
| DResults (severity : string) (hotspotCount : nat) (confidence : Q).

Record AuditLog := {
  audit_requestId : string;
  audit_timestamp : string;
  audit_clientIp : string;
  audit_action : string;
  audit_status : AuditStatus;
  audit_details : list (string * DetailValue);
  audit_processingTime : option Z
}.

(** [obj[key] = v] on an object kept as its list of properties. *)
Fixpoint set_property (key : string) (v : DetailValue) (obj : list (string * DetailValue))
  : list (string * DetailValue) :=
  match obj with
  | [] => [(key, v)]
  | (k, w) :: rest =>
      if String.eqb k key then (k, v) :: rest else (k, w) :: set_property key v rest
  end.

Definition with_details (a : AuditLog) (d : list (string * DetailValue)) : AuditLog :=
  {| audit_requestId := audit_requestId a; audit_timestamp := audit_timestamp a;
     audit_clientIp := audit_clientIp a; audit_action := audit_action a;
     audit_status := audit_status a; audit_details := d;
     audit_processingTime := audit_processingTime a |}.

Definition with_detail (a : AuditLog) (key : string) (v : DetailValue) : AuditLog :=
  with_details a (set_property key v (audit_details a)).

Definition with_status (a : AuditLog) (s : AuditStatus) : AuditLog :=
  {| audit_requestId := audit_requestId a; audit_timestamp := audit_timestamp a;
     audit_clientIp := audit_clientIp a; audit_action := audit_action a;
     audit_status := s; audit_details := audit_details a;
     audit_processingTime := audit_processingTime a |}.

Definition with_processingTime (a : AuditLog) (t : Z) : AuditLog :=
  {| audit_requestId := audit_requestId a; audit_timestamp := audit_timestamp a;
     audit_clientIp := audit_clientIp a; audit_action := audit_action a;
     audit_status := audit_status a; audit_details := audit_details a;
     audit_processingTime := Some t |}.

(** ** What the handler does besides answering *)

Record DetectionLog := {
  log_isThermalImage : bool;
  log_imageType : string;
  log_demoMode : bool;
  log_thermalColorPattern : bool;
  log_redBias : Q;
  log_blueBias : Q;
  log_highColorVariance : bool;
  log_moderateColors : bool;
  log_colorGradient : bool;
  log_thermalBias : bool
}.

Inductive Event :=
| ConsoleError (text : string)
| ImageAnalysisLog (uniqueColors : nat) (avgColorVariance : jsnum) (totalPixels : nat)
                   (imageType : option string) (w h : nat)
| ThermalDetectionLog (d : DetectionLog)
| VisionCall (image : list Byte.byte)
| AuditRecord (a : AuditLog).

(** ** Text helpers *)

Fixpoint has_dot (s : string) : bool :=
  match s with
  | EmptyString => false
  | String c rest => Ascii.eqb c "."%char || has_dot rest
  end.

(** [name.split('.').pop()]: what follows the last dot, or the whole text
    when it has none. *)
Fixpoint last_segment (s : string) : string :=
  match s with
  | EmptyString => EmptyString
  | String c rest =>
      if has_dot rest then last_segment rest
      else if Ascii.eqb c "."%char then rest
      else String c rest
  end.

Definition lower_ascii (c : Ascii.ascii) : Ascii.ascii :=
  let n := Ascii.nat_of_ascii c in
  if (65 <=? n)%nat && (n <=? 90)%nat then Ascii.ascii_of_nat (n + 32) else c.

(** [toLowerCase()], on the letters A to Z. *)
Fixpoint toLowerCase (s : string) : string :=
  match s with
  | EmptyString => EmptyString
  | String c rest => String (lower_ascii c) (toLowerCase rest)
  end.

Definition includes (l : list string) (s : string) : bool := existsb (String.eqb s) l.

(** [text.includes(part)] *)
Definition str_includes (text part : string) : bool :=
  match String.index 0 part text with Some _ => true | None => false end.

Fixpoint join (sep : string) (l : list string) : string :=
  match l with
  | [] => EmptyString
  | [a] => a
  | a :: rest => a +:+ sep +:+ join sep rest
  end.

(** ** Post-processing of the inference answer *)

Definition normalize_hotspot (h : RawHotspot) : Hotspot :=
  {| h_x := Math_round (num_or (raw_x h) 0);
     h_y := Math_round (num_or (raw_y h) 0);
     h_radius := Math_round (num_or (raw_radius h) 20);
     h_intensity := Math_round (num_or (raw_intensity h) 50);
     h_area := num_or (raw_area h) 1000;
     h_description := str_or (raw_description h) "Thermal anomaly detected" |}.

(** [hotspots.slice(0, 50)] *)
Definition slice50 (hotspots : list Hotspot) : list Hotspot := take 50 hotspots.

(** [h.area || Math.PI * h.radius * h.radius] *)
Definition hotspot_area (h : Hotspot) : spec_float :=
  if truthy (h_area h) then b64_of_Q (h_area h)
  else b64_mul (b64_mul Math_PI (b64_of_Z (h_radius h))) (b64_of_Z (h_radius h)).

(** [hotspots.reduce((sum, h) => sum + (h.area || ...), 0)]: the areas are
    added from left to right, each addition rounding. *)
Definition totalArea (hotspots : list Hotspot) : spec_float :=
  foldl (λ sum h, b64_add sum (hotspot_area h)) (S754_zero false) hotspots.

(** The metadata stored from the inference answer. *)
Record AiMetadata := {
  ai_analysis : string;
  ai_recommendations : list string;
  ai_aiModel : string;
  ai_confidence : Q
}.

(** The confidence of the answer once the inference metadata is merged. *)
Definition merged_confidence (base : Q) (response_metadata : option AiMetadata) : Q :=
  match response_metadata with
  | Some m =>
      if truthy (ai_confidence m)
      then (let normalizedConfidence := ai_confidence m in
            if Qgtb normalizedConfidence 1 then normalizedConfidence / 100
            else normalizedConfidence)%Q
      else base
  | None => base
  end.

Definition aiConfidence (visionResult : VisionResult) : Q :=
  num_or (vr_confidence visionResult) 0.85.

Definition ai_metadata (visionResult : VisionResult) : AiMetadata :=
  {| ai_analysis := str_or (vr_analysis visionResult) "Thermal analysis completed";
     ai_recommendations := default [] (vr_recommendations visionResult);
     ai_aiModel := "gpt-4o";
     ai_confidence := aiConfidence visionResult |}.

Definition extracted_hotspots (visionResult : VisionResult) : list Hotspot :=
  normalize_hotspot <$> default [] (vr_hotspots visionResult).

Definition extracted_maxTemp (visionResult : VisionResult) : option Q :=
  match vr_maxTemperature visionResult with
  | Some t => if truthy t then Some t else None
  | None => None
  end.

Definition base_confidence (isThermal : bool) : Q := if isThermal then 0.85 else 0.

(** [finalResponse] after the merge of the inference metadata. *)
Definition finalResponse (env : Env) (isThermal : bool) (width height : Z)
    (severity : string) (hotspots : list Hotspot) (maxTemp : option Q)
    (response_metadata : option AiMetadata) : Body :=
  FullBody (requestId env) severity (slice50 hotspots)
    (merged_confidence (base_confidence isThermal) response_metadata)
    {| fm_totalHotspots := length hotspots;
       fm_maxTemperature := maxTemp;
       fm_affectedArea := b64_round (b64_div (totalArea hotspots) (b64_of_Z 100));
       fm_imageType := if isThermal then "thermal" else "visual";
       fm_dimensions := (width, height);
       fm_processingTime := pretty (responseTime env - startTime env) +:+ "ms";
       fm_timestamp := responseTimestamp env;
       fm_analysis := ai_analysis <$> response_metadata;
       fm_recommendations := ai_recommendations <$> response_metadata;
       fm_aiModel := ai_aiModel <$> response_metadata;
       fm_confidence := ai_confidence <$> response_metadata |}.

Definition not_thermal_body : Body :=
  ShortBody [] "none" 0.95
    {| sm_totalHotspots := 0; sm_maxTemperature := None; sm_affectedArea := 0;
       sm_message := "Image does not appear to be a thermal image";
       sm_error := None |}.

Definition vision_fallback_body : Body :=
  ShortBody [] "unknown" 0.5
    {| sm_totalHotspots := 0; sm_maxTemperature := None; sm_affectedArea := 0;
       sm_message := "Advanced analysis temporarily unavailable. Please try again.";
       sm_error := Some "vision_api_error"%string |}.

(** ** The handler *)

(** How the guarded body of the handler ends: with an answer, or with an
    exception for the outermost handler.  Both carry the audit record as the
    body left it and the events so far. *)
Inductive Completion :=
| Returned (r : Response) (auditLog : AuditLog) (evs : list Event)
| Thrown (message : string) (auditLog : AuditLog) (evs : list Event).

(** The guarded image validation: reading the metadata and checking the
    dimensions; any exception there is answered with a 400. *)
Definition validate_image (env : Env) (buffer : list Byte.byte) : Result Metadata :=
  match sharp_metadata env buffer with
  | Throws errorMessage => Throws errorMessage
  | Ok metadata =>
      if bool_decide (default 0 (meta_width metadata) = 0)
         || bool_decide (default 0 (meta_height metadata) = 0)
      then Throws "Invalid image dimensions"
      else if (default 0 (meta_width metadata) >? MAX_IMAGE_DIMENSION)
              || (default 0 (meta_height metadata) >? MAX_IMAGE_DIMENSION)
      then Throws ("Image dimensions exceed maximum allowed size of "
                   +:+ pretty MAX_IMAGE_DIMENSION +:+ "px")
      else Ok metadata
  end.

(** The successful end of the handler: the assembled answer and the audit
    record. *)
Definition assemble (env : Env) (auditLog : AuditLog) (isThermal : bool) (width height : Z)
    (visionResult : VisionResult) (evs : list Event) : Completion :=
  let hotspots := extracted_hotspots visionResult in
  let severity := str_or (vr_severity visionResult) "medium" in
  let maxTemp := extracted_maxTemp visionResult in
  let response_metadata := Some (ai_metadata visionResult) in
  let final := finalResponse env isThermal width height severity hotspots maxTemp
                 response_metadata in
  let auditLog := with_status auditLog success in
  let auditLog := with_processingTime auditLog (auditTime env - startTime env) in
  let auditLog := with_detail auditLog "results"
                    (DResults severity (length hotspots) (base_confidence isThermal)) in
  Returned (json final) auditLog (evs ++ [AuditRecord auditLog]).

(** The inference call with its fallback. *)
Definition analyze_thermal (env : Env) (auditLog : AuditLog) (buffer : list Byte.byte)
    (isThermal : bool) (width height : Z) (evs : list Event) : Completion :=
  match vision env buffer with
  | Ok visionResult =>
      assemble env auditLog isThermal width height visionResult (evs ++ [VisionCall buffer])
  | Throws visionError =>
      Returned (json vision_fallback_body) auditLog
        (evs ++ [VisionCall buffer; ConsoleError ("OpenAI Vision API error: " +:+ visionError)])
  end.

(** [formData.get('imageType') as string || 'auto'] *)
Definition imageType_of (fd : FormData) : string := str_or (form_imageType fd) "auto".

(** [formData.get('demoMode') === 'true'] *)
Definition demoMode_of (fd : FormData) : bool :=
  bool_decide (form_demoMode fd = Some "true"%string).

(** The payload of the detector's second debug line. *)
Definition detection_log (fd : FormData) (raw : RawImage) : DetectionLog :=
  let f := features_of (sample_image raw) in
  {| log_isThermalImage := isThermalImage (demoMode_of fd) (imageType_of fd) f;
     log_imageType := imageType_of fd;
     log_demoMode := demoMode_of fd;
     log_thermalColorPattern := thermalColorPattern f;
     log_redBias := redBias f;
     log_blueBias := blueBias f;
     log_highColorVariance := hasHighColorVariance f;
     log_moderateColors := hasModerateColors f;
     log_colorGradient := hasColorGradient f;
     log_thermalBias := hasThermalBias f |}.

(** The two debug lines written by the detector. *)
Definition detection_events (fd : FormData) (raw : RawImage) : list Event :=
  let s := sample_image raw in
  let f := features_of s in
  [ImageAnalysisLog (uniqueColors f) (avgColorVariance f) (totalPixels s)
     (form_imageType fd) (info_width raw) (info_height raw);
   ThermalDetectionLog (detection_log fd raw)].

(** Sampling, classification and what follows from it. *)
Definition detect (env : Env) (auditLog : AuditLog) (fd : FormData)
    (buffer : list Byte.byte) (width height : Z) (raw : RawImage) : Completion :=
  let f := features_of (sample_image raw) in
  let isThermal := isThermalImage (demoMode_of fd) (imageType_of fd) f in
  let evs := detection_events fd raw in
  if negb isThermal
  then Returned (json not_thermal_body) auditLog evs
  else analyze_thermal env auditLog buffer isThermal width height evs.

(** The body of the handler after the rate limiting check. *)
Definition analyze (env : Env) (request : Request) (auditLog : AuditLog) : Completion :=
  match formData request with
  | Throws e => Thrown e auditLog []
  | Ok fd =>
    let imageType := imageType_of fd in
    let demoMode := demoMode_of fd in
    match form_image fd with
    | None =>
        Returned
          (json_status (ErrorBody "Please provide a valid image file" (requestId env)) 400)
          (with_details auditLog [("error"%string, DText "Invalid file upload")]) []
    | Some file =>
      if file_size file >? MAX_FILE_SIZE
      then
        Returned
          (json_status
             (ErrorBody ("File size exceeds maximum allowed size of "
                         +:+ pretty (MAX_FILE_SIZE / 1024 / 1024) +:+ "MB")
                        (requestId env)) 400)
          (with_details auditLog [("error"%string, DText "File too large");
                                  ("size"%string, DNumber (file_size file))]) []
      else
      let fileExtension := toLowerCase (last_segment (file_name file)) in
      if String.eqb fileExtension EmptyString || negb (includes ALLOWED_FORMATS fileExtension)
      then
        Returned
          (json_status
             (ErrorBody ("Invalid file format. Allowed formats: "
                         +:+ join ", " ALLOWED_FORMATS)
                        (requestId env)) 400)
          (with_details auditLog [("error"%string, DText "Invalid file format");
                                  ("format"%string, DText fileExtension)]) []
      else
      let auditLog :=
        with_detail auditLog "fileInfo"
          (DFileInfo (file_name file) (file_size file) (file_type file) imageType demoMode) in
      match file_arrayBuffer file with
      | Throws e => Thrown e auditLog []
      | Ok buffer =>
        match validate_image env buffer with
        | Throws errorMessage =>
            Returned
              (json_status
                 (ErrorBody "Invalid or corrupted image file. Please upload a valid image."
                            (requestId env)) 400)
              (with_details auditLog [("error"%string, DText "Invalid image file");
                                      ("details"%string, DText errorMessage)])
              [ConsoleError ("[" +:+ requestId env +:+ "] Image validation failed: "
                             +:+ errorMessage)]
        | Ok metadata =>
          let width := default 0 (meta_width metadata) in
          let height := default 0 (meta_height metadata) in
          let auditLog :=
            with_detail auditLog "imageMetadata"
              (DImageMetadata width height (meta_format metadata) (meta_channels metadata)) in
          match sharp_raw env buffer with
          | Throws e => Thrown e auditLog []
          | Ok raw => detect env auditLog fd buffer width height raw
          end
        end
      end
    end
  end.

Record Outcome := {
  response : Response;
  store_after : gmap string RateEntry;
  auditLog_after : AuditLog;
  events : list Event
}.

(** [request.headers.get('x-forwarded-for') || 'unknown'] *)
Definition clientIp_of (request : Request) : string :=
  str_or (x_forwarded_for request) "unknown".

(** The audit record as it is initialised on entry. *)
Definition initial_auditLog (env : Env) (clientIp : string) : AuditLog :=
  {| audit_requestId := requestId env;
     audit_timestamp := timestamp env;
     audit_clientIp := clientIp;
     audit_action := "hotspot_analysis";
     audit_status := failure;
     audit_details := [];
     audit_processingTime := None |}.

Definition POST (store : gmap string RateEntry) (env : Env) (request : Request) : Outcome :=
  let clientIp := clientIp_of request in
  let auditLog := initial_auditLog env clientIp in
  match rate_limit_check store clientIp (now env) with
  | (Rejected retryAfter, store) =>
      {| response :=
           json_status
             (RateLimitBody "Too many requests. Please try again later." (requestId env)
                            retryAfter) 429;
         store_after := store;
         auditLog_after := with_details auditLog [("error"%string, DText "Rate limit exceeded")];
         events := [ConsoleError ("[" +:+ requestId env +:+ "] Rate limit exceeded for "
                                  +:+ clientIp)] |}
  | (Proceed, store) =>
      match analyze env request auditLog with
      | Returned r auditLog evs =>
          {| response := r; store_after := store; auditLog_after := auditLog; events := evs |}
      | Thrown errorMessage auditLog evs =>
          let auditLog := with_detail auditLog "error" (DText errorMessage) in
          let auditLog := with_processingTime auditLog (auditTime env - startTime env) in
          let clientError :=
            if str_includes errorMessage "timeout"
            then "Request timed out. Please try with a smaller image."%string
            else "An error occurred during analysis. Please try again."%string in
          {| response :=
               json_status
                 (FailureBody clientError (requestId env)
                    "If this issue persists, please contact support with the request ID.") 500;
             store_after := store;
             auditLog_after := auditLog;
             events := evs ++ [ConsoleError ("[" +:+ requestId env
                                             +:+ "] Hotspot analysis failed: " +:+ errorMessage);
                               AuditRecord auditLog] |}
      end
  end.

(** Requests handled one after the other, each on the store the previous
    one left. *)
Definition serve (store : gmap string RateEntry) (calls : list (Env * Request))
  : gmap string RateEntry :=
  foldl (λ st call, store_after (POST st call.1 call.2)) store calls.

(** ** The way to the detector *)

(** What it takes for the body to get to the detector: a form with a file
    that passes every check and decodes to [raw]. *)
Record ReachesDetector (env : Env) (request : Request) (fd : FormData) (file : File)
    (buffer : list Byte.byte) (metadata : Metadata) (raw : RawImage) : Prop := {
  reach_form : formData request = Ok fd;
  reach_file : form_image fd = Some file;
  reach_size : file_size file <= MAX_FILE_SIZE;
  reach_format :
    includes ALLOWED_FORMATS (toLowerCase (last_segment (file_name file))) = true;
  reach_buffer : file_arrayBuffer file = Ok buffer;
  reach_metadata : validate_image env buffer = Ok metadata;
  reach_raw : sharp_raw env buffer = Ok raw
}.

(** The classification of a decoded submission, as the detector takes it. *)
Definition classification (fd : FormData) (raw : RawImage) : bool :=
  isThermalImage (demoMode_of fd) (imageType_of fd) (features_of (sample_image raw)).

(** The handler's outcome when the body gets to the detector. *)
Definition detector_outcome (store : gmap string RateEntry) (c : Completion) : Outcome → Prop :=
  λ o, match c with
       | Returned r a evs =>
           o = {| response := r; store_after := store; auditLog_after := a; events := evs |}
       | Thrown _ _ _ => False
       end.

(** ** Reading an answer *)

(** The top-level [confidence] of an answer, when it has one. *)
Definition answer_confidence (r : Response) : option Q :=
  match body r with
  | ShortBody _ _ confidence _ => Some confidence
  | FullBody _ _ _ confidence _ => Some confidence
  | _ => None
  end.

(** The [hotspots] of an answer. *)
Definition answer_hotspots (r : Response) : list Hotspot :=
  match body r with
  | ShortBody hotspots _ _ _ => hotspots
  | FullBody _ _ hotspots _ _ => hotspots
  | _ => []
  end.

(** * The described behaviour *)

(** The confidence as the description of the post-processing gives it: the
    service's value divided by 100 when it is present and greater than 1,
    unchanged otherwise, and 0.85 when the service gives none. *)
Definition spec_confidence (service : option Q) : Q :=
  match service with
  | Some c => if Qgtb c 1 then (c / 100)%Q else c
  | None => 0.85%Q
  end.

(** [n] is the integer nearest to [v], ties going up. *)
Definition nearest_integer (v : Q) (n : Z) : Prop :=
  (inject_Z n - (1 # 2) <= v ∧ v < inject_Z n + (1 # 2))%Q.

(** A coordinate of a hotspot as the handler derives it from the service's
    optional value: rounded, 0 when the value is missing. *)
Definition rounded_coordinate (given : option Q) (n : Z) : Prop :=
  match given with
  | Some v => nearest_integer v n
  | None => n = 0
  end.

(** The classification as the detector's description gives it, over the four
    derived features and the two hints.  A comparison with an average that
    is not a number does not hold. *)
Definition above (a : jsnum) (c : Q) : Prop := ∃ q, a = Some q ∧ (c < q)%Q.
Definition below (a : jsnum) (c : Q) : Prop := ∃ q, a = Some q ∧ (q < c)%Q.

Definition spec_highVariance (f : Features) : Prop := above (avgColorVariance f) 50.
Definition spec_moderateColors (f : Features) : Prop :=
  (50 < uniqueColors f ∧ uniqueColors f < 300)%nat.
Definition spec_colorGradient (f : Features) : Prop :=
  (100 < uniqueColors f)%nat ∧ above (avgColorVariance f) 100.
Definition spec_thermalBias (f : Features) : Prop :=
  (0.3 < redBias f)%Q ∨ (0.3 < blueBias f)%Q.

Definition spec_thermalColorPattern (f : Features) : Prop :=
  (spec_thermalBias f ∧ spec_moderateColors f)
  ∨ (spec_colorGradient f ∧ spec_highVariance f)
  ∨ ((uniqueColors f < 50)%nat ∧ below (avgColorVariance f) 10)
  ∨ (above (avgColorVariance f) 150 ∧ (100 < uniqueColors f)%nat).

(** [demoMode] and [declared] are the form's fields as the caller sent them. *)
Definition spec_thermal (demoMode declared : option string) (f : Features) : Prop :=
  demoMode = Some "true"%string
  ∨ (declared = Some "thermal"%string ∧ spec_thermalColorPattern f)
  ∨ (declared ≠ Some "visual"%string ∧ spec_thermalColorPattern f).

(** The sample at column [x] of row [y] is grey: its three channels are read
    inside the buffer and are equal. *)
Definition grey_at (img : RawImage) (y x : nat) : Prop :=
  let idx := ((y * info_width img + x) * info_channels img)%nat in
  ∃ c, read_channel (pixelArray img) idx = Some c
       ∧ read_channel (pixelArray img) (idx + 1) = Some c
       ∧ read_channel (pixelArray img) (idx + 2) = Some c.

(** The accumulated colour variance is zero (of either sign). *)
Definition zero_variance (s : SampleState) : Prop :=
  ∃ sign, colorVariance s = S754_zero sign.


(** * Sample submissions *)

(** A one-pixel black image, three channels. *)
Definition black_image : RawImage :=
  {| pixelArray := [Byte.x00; Byte.x00; Byte.x00];
     info_width := 1; info_height := 1; info_channels := 3 |}.

(** A one-pixel image of pure red. *)
Definition red_image : RawImage :=
  {| pixelArray := [Byte.xff; Byte.x00; Byte.x00];
     info_width := 1; info_height := 1; info_channels := 3 |}.

(** The bytes of a PNG file holding that image. *)
Definition sample_bytes : list Byte.byte :=
  [Byte.x89; Byte.x50; Byte.x4e; Byte.x47; Byte.x0d; Byte.x0a; Byte.x1a; Byte.x0a;
   Byte.x00; Byte.x00; Byte.x00; Byte.x0d; Byte.x49; Byte.x48; Byte.x44; Byte.x52;
   Byte.x00; Byte.x00; Byte.x00; Byte.x01; Byte.x00; Byte.x00; Byte.x00; Byte.x01;
   Byte.x08; Byte.x02; Byte.x00; Byte.x00; Byte.x00; Byte.x90; Byte.x77; Byte.x53;
   Byte.xde; Byte.x00; Byte.x00; Byte.x00; Byte.x0c; Byte.x49; Byte.x44; Byte.x41;
   Byte.x54; Byte.x78; Byte.xda; Byte.x63; Byte.x60; Byte.x60; Byte.x60; Byte.x00;
   Byte.x00; Byte.x00; Byte.x04; Byte.x00; Byte.x01; Byte.xc8; Byte.xea; Byte.xeb;
   Byte.xf9; Byte.x00; Byte.x00; Byte.x00; Byte.x00; Byte.x49; Byte.x45; Byte.x4e;
   Byte.x44; Byte.xae; Byte.x42; Byte.x60; Byte.x82].

Definition sample_file : File :=
  {| file_name := "panel.PNG"; file_size := 69; file_type := "image/png";
     file_arrayBuffer := Ok sample_bytes |}.

Definition sample_request (image : option File) (imageType demoMode : option string)
  : Request :=
  {| x_forwarded_for := Some "10.0.0.7"%string;
     formData := Ok {| form_image := image; form_imageType := imageType;
                       form_demoMode := demoMode |} |}.

(** A run in which the file decodes to a one-pixel image [raw] and the
    inference block ends with [answer]. *)
Definition sample_env (raw : RawImage) (answer : Result VisionResult) (now : Z) : Env :=
  {| startTime := now; requestId := "req-1"; timestamp := "2025-01-01T00:00:00.000Z";
     now := now;
     sharp_metadata := λ _, Ok {| meta_width := Some 1; meta_height := Some 1;
                                  meta_format := Some "png"%string;
                                  meta_channels := Some 3 |};
     sharp_raw := λ _, Ok raw;
     vision := λ _, answer;
     responseTime := now + 500; responseTimestamp := "2025-01-01T00:00:00.500Z";
     auditTime := now + 500 |}.

(** The same run for a file whose metadata give the largest dimensions
    allowed. *)
Definition largest_env (raw : RawImage) (answer : Result VisionResult) (now : Z) : Env :=
  {| startTime := now; requestId := "req-1"; timestamp := "2025-01-01T00:00:00.000Z";
     now := now;
     sharp_metadata := λ _, Ok {| meta_width := Some MAX_IMAGE_DIMENSION;
                                  meta_height := Some MAX_IMAGE_DIMENSION;
                                  meta_format := Some "png"%string;
                                  meta_channels := Some 3 |};
     sharp_raw := λ _, Ok raw;
     vision := λ _, answer;
     responseTime := now + 500; responseTimestamp := "2025-01-01T00:00:00.500Z";
     auditTime := now + 500 |}.

Definition sample_hotspot (x y : option Q) : RawHotspot :=
  {| raw_x := x; raw_y := y; raw_radius := None; raw_intensity := None;
     raw_area := None; raw_description := None |}.

(** A hotspot for which the service gave the area only. *)
Definition area_hotspot (area : Q) : RawHotspot :=
  {| raw_x := None; raw_y := None; raw_radius := None; raw_intensity := None;
     raw_area := Some area; raw_description := None |}.

(** An image of 21 by 1 pixels, sampled at its first and its last pixel,
    which are two dark blues. *)
Definition two_sample_image : RawImage :=
  {| pixelArray := [Byte.x00; Byte.x00; Byte.x01] ++ replicate 57 Byte.x00
                   ++ [Byte.x00; Byte.x00; Byte.x0e];
     info_width := 21; info_height := 1; info_channels := 3 |}.

Definition sample_answer (hotspots : list RawHotspot) (confidence : option Q)
  : VisionResult :=
  {| vr_hotspots := Some hotspots; vr_severity := Some "high"%string;
     vr_maxTemperature := Some 71%Q; vr_analysis := None;
     vr_recommendations := None; vr_confidence := confidence |}.

(** * The client of the route and the server loop *)

(** The answers given to requests handled one after the other. *)
Fixpoint serve_responses (store : gmap string RateEntry) (calls : list (Env * Request))
  : list Response :=
  match calls with
  | [] => []
  | call :: rest =>
      let o := POST store call.1 call.2 in
      response o :: serve_responses (store_after o) rest
  end.

(** [response.ok]: a status from 200 to 299. *)
Definition response_ok (r : Response) : bool := (200 <=? status r) && (status r <=? 299).

(** The request [detectHotspots(image, imageType)] sends: a form with the
    file and the image type, which is ['thermal'] when the caller gives
    none; [forwarded] is the header the platform puts on it. *)
Definition detectHotspots_request (forwarded : option string) (image : File)
    (imageType : option string) : Request :=
  {| x_forwarded_for := forwarded;
     formData := Ok {| form_image := Some image;
                       form_imageType := Some (default "thermal"%string imageType);
                       form_demoMode := None |} |}.

(** [detectHotspots]: the parsed body when the response is ok, an exception
    otherwise. *)
Definition detectHotspots (store : gmap string RateEntry) (env : Env)
    (forwarded : option string) (image : File) (imageType : option string) : Result Body :=
  let r := response (POST store env (detectHotspots_request forwarded image imageType)) in
  if response_ok r then Ok (body r) else Throws "Hotspot detection failed".

(** The audit records among the events, in order. *)
Definition audit_records (evs : list Event) : list AuditLog :=
  omap (λ e, match e with AuditRecord a => Some a | _ => None end) evs.

(** The inference calls among the events, in order. *)
Definition vision_calls (evs : list Event) : list (list Byte.byte) :=
  omap (λ e, match e with VisionCall b => Some b | _ => None end) evs.

(** The answers that are not rate limit rejections. *)
Definition let_through (rs : list Response) : list Response :=
  filter (λ r, status r ≠ 429) rs.

(** The sum of the counts held by a colour histogram. *)
Definition histogram_total (h : gmap ColorKey N) : N :=
  map_fold (λ _ n acc, (n + acc)%N) 0%N h.

(** The hotspots of the inference answer, [visionResult.hotspots || []]. *)
Definition given_hotspots (visionResult : VisionResult) : list RawHotspot :=
  default [] (vr_hotspots visionResult).

(** The area the handler adds up for a hotspot of the inference answer. *)
Definition given_area (h : RawHotspot) : Q := num_or (raw_area h) 1000.

(** Those areas added up as the handler adds numbers: from left to right,
    starting from 0, every addition rounding to binary64. *)
Definition given_area_sum (hs : list RawHotspot) : spec_float :=
  foldl (λ sum h, b64_add sum (b64_of_Q (given_area h))) (S754_zero false) hs.

(** The metadata of an answer, when it is the assembled one. *)
Definition answer_metadata (r : Response) : option FullMetadata :=
  match body r with
  | FullBody _ _ _ _ metadata => Some metadata
  | _ => None
  end.

(** The keys a grey sample can fall under: the same level, from 0 to 7, on
    the three channels. *)
Definition grey_keys : gset ColorKey :=
  list_to_set ((λ l : N, (Some l, Some l, Some l)) <$> [0; 1; 2; 3; 4; 5; 6; 7]%N).

(** The sample at column [x] of row [y] reads past the end of the buffer. *)
Definition reads_outside (img : RawImage) (y x : nat) : Prop :=
  (length (pixelArray img) <= (y * info_width img + x) * info_channels img + 2)%nat.

(** * Properties *)

(** ** The helpers on small inputs *)

Example stride_positions_41 : stride_positions 41 = [0; 20; 40]%nat.
Proof. reflexivity. Qed.

Example stride_positions_40 : stride_positions 40 = [0; 20]%nat.
Proof. reflexivity. Qed.

Lemma stride_positions_spec (n x : nat) :
  x ∈ stride_positions n ↔ (x < n)%nat ∧ ∃ i, x = (20 * i)%nat.
Proof.
  unfold stride_positions. rewrite list_elem_of_fmap. split.
  - intros (i & -> & Hi). apply elem_of_seq in Hi as [_ Hi].
    split; [|eauto].
    pose proof (Nat.div_mod_eq (n + 19) 20) as Hdiv.
    pose proof (Nat.mod_upper_bound (n + 19) 20 ltac:(lia)) as Hmod. lia.
  - intros (Hlt & i & ->). exists i. split; [done|].
    apply elem_of_seq.
    pose proof (Nat.div_mod_eq (n + 19) 20) as Hdiv.
    pose proof (Nat.mod_upper_bound (n + 19) 20 ltac:(lia)) as Hmod. lia.
Qed.

Example extension_of_upper_case_name :
  toLowerCase (last_segment "scan.v2.JPG") = "jpg"%string.
Proof. reflexivity. Qed.

Example extension_without_dot : last_segment "panel" = "panel"%string.
Proof. reflexivity. Qed.

Example extension_after_final_dot : last_segment "panel." = EmptyString.
Proof. reflexivity. Qed.

Example Math_round_half_up : Math_round (5 # 2) = 3 ∧ Math_round (- (5 # 2)) = -2.
Proof. split; reflexivity. Qed.

Example Math_ceil_of_part : Math_ceil (inject_Z 1 / 1000) = 1.
Proof. reflexivity. Qed.

(** Numbers as the handler computes them: the rounding of every operation
    shows in the results. *)
Example b64_of_Q_tenth :
  b64_of_Q (1 # 10) = S754_finite false 7205759403792794 (-56)
  ∧ b64_of_Q (- (5912 # 100)) = S754_finite true 8320400311566991 (-47)
  ∧ b64_of_Q (3 # 2) = S754_finite false 6755399441055744 (-52).
Proof. split_and!; reflexivity. Qed.

Example b64_value_back :
  b64_of_Q <$> b64_value (S754_finite false 8320400311566991 (-47))
  = Some (S754_finite false 8320400311566991 (-47)).
Proof. reflexivity. Qed.

Example red_pixel_variance :
  pixel_variance (Some 255%N) (Some 0%N) (Some 0%N) = b64_of_Z 340.
Proof. reflexivity. Qed.

Example red_image_features :
  colorVariance (sample_image red_image) = b64_of_Z 340
  ∧ uniqueColors (features_of (sample_image red_image)) = 1%nat
  ∧ (redBias (features_of (sample_image red_image)) == 1)%Q
  ∧ thermalColorPattern (features_of (sample_image red_image)) = false.
Proof. split_and!; by vm_compute. Qed.

(** The two samples have variances of one third of 4 and of 56, whose
    rounded sum, halved, falls just below 10. *)
Example two_sample_image_average :
  average (sample_image two_sample_image) = S754_finite false 5629499534213119 (-49)
  ∧ js_lt (avgColorVariance (features_of (sample_image two_sample_image))) 10 = true
  ∧ thermalColorPattern (features_of (sample_image two_sample_image)) = true.
Proof. split_and!; by vm_compute. Qed.

(** The areas are added from left to right: 4.42, 25.03 and 120.55 make
    150 and an affected area of 2, while 4.42 added to the sum of the two
    others makes less than 150. *)
Example totalArea_left_to_right :
  let hotspots := normalize_hotspot
                  <$> [area_hotspot (442 # 100); area_hotspot (2503 # 100);
                       area_hotspot (12055 # 100)] in
  totalArea hotspots = b64_of_Z 150
  ∧ b64_round (b64_div (totalArea hotspots) (b64_of_Z 100)) = Some 2
  ∧ b64_round (b64_div (b64_add (b64_of_Q (442 # 100))
                          (b64_add (b64_of_Q (2503 # 100)) (b64_of_Q (12055 # 100))))
                 (b64_of_Z 100)) = Some 1.
Proof. split_and!; by vm_compute. Qed.

Example black_image_features :
  uniqueColors (features_of (sample_image black_image)) = 1%nat
  ∧ js_lt (avgColorVariance (features_of (sample_image black_image))) 10 = true.
Proof. split; reflexivity. Qed.

(** ** Numbers *)

Lemma Qgtb_true (a b : Q) : Qgtb a b = true ↔ (b < a)%Q.
Proof.
  unfold Qgtb. rewrite negb_true_iff, <- not_true_iff_false, Qle_bool_iff.
  split; [apply Qnot_le_lt | apply Qlt_not_le].
Qed.

Lemma Qgtb_false (a b : Q) : Qgtb a b = false ↔ (a <= b)%Q.
Proof. unfold Qgtb. by rewrite negb_false_iff, Qle_bool_iff. Qed.

Lemma Qltb_true (a b : Q) : Qltb a b = true ↔ (a < b)%Q.
Proof. apply Qgtb_true. Qed.

Lemma truthy_true (q : Q) : truthy q = true ↔ ¬ (q == 0)%Q.
Proof.
  unfold truthy. rewrite negb_true_iff, <- not_true_iff_false, Qeq_bool_iff. done.
Qed.

Lemma truthy_false (q : Q) : truthy q = false ↔ (q == 0)%Q.
Proof. unfold truthy. by rewrite negb_false_iff, Qeq_bool_iff. Qed.

Lemma Math_round_nearest (v : Q) : nearest_integer v (Math_round v).
Proof.
  unfold nearest_integer, Math_round.
  pose proof (Qfloor_le (v + (1 # 2))) as Hle.
  pose proof (Qlt_floor (v + (1 # 2))) as Hlt.
  rewrite inject_Z_plus in Hlt. change (inject_Z 1) with 1%Q in Hlt.
  split; lra.
Qed.

Lemma nearest_integer_range (v : Q) (n lo hi : Z) :
  nearest_integer v n → (inject_Z lo <= v)%Q → (v <= inject_Z hi)%Q → lo <= n <= hi.
Proof.
  intros [Hle Hlt] Hlo Hhi.
  assert (H1 : (inject_Z lo < inject_Z (n + 1))%Q)
    by (rewrite inject_Z_plus; change (inject_Z 1) with 1%Q; lra).
  assert (H2 : (inject_Z n < inject_Z (hi + 1))%Q)
    by (rewrite inject_Z_plus; change (inject_Z 1) with 1%Q; lra).
  rewrite <- Zlt_Qlt in H1, H2. lia.
Qed.

Lemma num_or_rounded (given : option Q) :
  rounded_coordinate given (Math_round (num_or given 0)).
Proof.
  destruct given as [v|]; unfold rounded_coordinate, num_or; [|done].
  destruct (truthy v) eqn:Hv; [apply Math_round_nearest|].
  apply truthy_false in Hv. change (Math_round 0) with 0.
  unfold nearest_integer. change (inject_Z 0) with 0%Q. lra.
Qed.

(** ** The rate limiter *)

Lemma Math_ceil_pos (d : Z) : 0 < d → 0 < Math_ceil (inject_Z d / 1000).
Proof.
  intros Hd. unfold Math_ceil.
  rewrite Zlt_Qlt.
  eapply Qlt_le_trans; [|apply Qle_ceiling].
  apply Qlt_shift_div_l; [reflexivity|].
  rewrite Qmult_0_l. change 0%Q with (inject_Z 0). by rewrite <- Zlt_Qlt.
Qed.

Lemma rate_limit_check_fresh (store : gmap string RateEntry) (k : string) (t : Z) :
  store !! k = None →
  rate_limit_check store k t
  = (Proceed, <[k := {| count := 1; resetTime := t + RATE_WINDOW |}]> store).
Proof. intros H. unfold rate_limit_check. by rewrite H. Qed.

Lemma rate_limit_check_expired (store : gmap string RateEntry) (k : string) (t : Z) e :
  store !! k = Some e → resetTime e <= t →
  rate_limit_check store k t
  = (Proceed, <[k := {| count := 1; resetTime := t + RATE_WINDOW |}]> store).
Proof.
  intros H Hle. unfold rate_limit_check. rewrite H.
  replace (resetTime e >? t) with false by (symmetry; rewrite Z.gtb_ltb; lia).
  simpl. replace (resetTime e <=? t) with true by (symmetry; lia). done.
Qed.

Lemma rate_limit_check_count (store : gmap string RateEntry) (k : string) (t : Z) e :
  store !! k = Some e → t < resetTime e → count e < RATE_LIMIT →
  rate_limit_check store k t
  = (Proceed, <[k := {| count := count e + 1; resetTime := resetTime e |}]> store).
Proof.
  intros H Hlt Hc. unfold rate_limit_check. rewrite H.
  replace (count e >=? RATE_LIMIT) with false by (symmetry; rewrite Z.geb_leb; lia).
  rewrite andb_false_r.
  replace (resetTime e <=? t) with false by (symmetry; lia). done.
Qed.

Lemma rate_limit_check_full (store : gmap string RateEntry) (k : string) (t : Z) e :
  store !! k = Some e → t < resetTime e → RATE_LIMIT <= count e →
  rate_limit_check store k t
  = (Rejected (Math_ceil (inject_Z (resetTime e - t) / 1000)), store).
Proof.
  intros H Hlt Hc. unfold rate_limit_check. rewrite H.
  replace (resetTime e >? t) with true by (symmetry; rewrite Z.gtb_ltb; lia).
  replace (count e >=? RATE_LIMIT) with true by (symmetry; rewrite Z.geb_leb; lia).
  done.
Qed.

(** The store a request leaves is the one the rate limiting check leaves,
    whatever happens afterwards. *)
Lemma POST_store_after (store : gmap string RateEntry) (env : Env) (request : Request) :
  store_after (POST store env request)
  = (rate_limit_check store (clientIp_of request) (now env)).2.
Proof.
  unfold POST. destruct (rate_limit_check _ _ _) as [[r|] st]; simpl; [done|].
  by destruct (analyze _ _ _).
Qed.

(** The answers of the body after the rate limiting check are 200 or 400. *)
Lemma analyze_status (env : Env) (request : Request) (a : AuditLog) r a' evs :
  analyze env request a = Returned r a' evs → status r = 200 ∨ status r = 400.
Proof.
  unfold analyze, detect, analyze_thermal, assemble.
  intros H. repeat case_match; simplify_eq; simpl; auto.
Qed.

Lemma POST_proceed_status (store : gmap string RateEntry) (env : Env) (request : Request) :
  (rate_limit_check store (clientIp_of request) (now env)).1 = Proceed →
  status (response (POST store env request)) ≠ 429.
Proof.
  unfold POST. destruct (rate_limit_check _ _ _) as [[r|] st]; simpl; [done|].
  intros _. destruct (analyze _ _ _) eqn:Ha; simpl; [|done].
  apply analyze_status in Ha. lia.
Qed.

(** Requests of one client inside its window raise its count by one each
    until the cap is reached, and leave the window as it is. *)
Lemma serve_counts (k : string) (calls : list (Env * Request)) :
  ∀ (store : gmap string RateEntry) (e : RateEntry),
    store !! k = Some e →
    Forall (λ call, clientIp_of call.2 = k ∧ now call.1 < resetTime e) calls →
    ∃ e', serve store calls !! k = Some e'
          ∧ resetTime e' = resetTime e
          ∧ Z.min (count e + Z.of_nat (length calls)) RATE_LIMIT <= count e'.
Proof.
  induction calls as [|call calls IH]; intros store e Hk Hall.
  - exists e. simpl. split_and!; [done..|lia].
  - apply Forall_cons in Hall as [[Hip Hnow] Hall].
    change (serve store (call :: calls))
      with (serve (store_after (POST store call.1 call.2)) calls).
    rewrite POST_store_after, Hip.
    destruct (Z_lt_le_dec (count e) RATE_LIMIT) as [Hroom | Hfull].
    + rewrite (rate_limit_check_count _ _ _ _ Hk) by done. simpl snd.
      destruct (IH (<[k := {| count := count e + 1; resetTime := resetTime e |}]> store)
                  {| count := count e + 1; resetTime := resetTime e |})
        as (e' & He' & Hreset & Hcount); [by rewrite lookup_insert_eq | done |].
      exists e'. simpl in *. split_and!; [done..|lia].
    + rewrite (rate_limit_check_full _ _ _ _ Hk) by done. simpl snd.
      destruct (IH store e Hk Hall) as (e' & He' & Hreset & Hcount).
      exists e'. simpl length. split_and!; [done..|lia].
Qed.

(** The rate limiting check keeps the counts positive, and so a store grown
    from the empty one holds positive counts only. *)
Lemma rate_limit_check_positive (store : gmap string RateEntry) (key : string) (t : Z) :
  (∀ k e, store !! k = Some e → 0 < count e) →
  ∀ k e, (rate_limit_check store key t).2 !! k = Some e → 0 < count e.
Proof.
  intros Hpos k e. unfold rate_limit_check.
  destruct (store !! key) as [userLimit|] eqn:Hl; repeat case_match; simpl;
    intros Hk; try (by eapply Hpos);
    apply lookup_insert_Some in Hk as [[<- <-] | [_ Hk]];
    simpl; try lia; try (by eapply Hpos).
  apply Hpos in Hl. lia.
Qed.

Lemma serve_counts_positive (calls : list (Env * Request)) :
  ∀ store : gmap string RateEntry,
    (∀ k e, store !! k = Some e → 0 < count e) →
    ∀ k e, serve store calls !! k = Some e → 0 < count e.
Proof.
  induction calls as [|call calls IH]; intros store Hpos; [done|].
  change (serve store (call :: calls))
    with (serve (store_after (POST store call.1 call.2)) calls).
  apply IH. rewrite POST_store_after. by apply rate_limit_check_positive.
Qed.

(** A request that has gone through the check is counted in the entry it
    leaves. *)
Lemma rate_limit_check_counted (store : gmap string RateEntry) (k : string) (t : Z)
    (opened : RateEntry) :
  (∀ e, store !! k = Some e → 0 <= count e) →
  (rate_limit_check store k t).2 !! k = Some opened →
  1 <= count opened.
Proof.
  intros Hpos. unfold rate_limit_check.
  destruct (store !! k) as [e|] eqn:He.
  - specialize (Hpos e eq_refl).
    destruct ((resetTime e >? t) && (count e >=? RATE_LIMIT)) eqn:Hrej; simpl.
    + rewrite He. intros [= <-].
      apply andb_true_iff in Hrej as [_ Hc]. rewrite Z.geb_leb in Hc.
      unfold RATE_LIMIT in Hc. lia.
    + destruct (resetTime e <=? t); simpl; rewrite lookup_insert_eq;
        intros [= <-]; simpl; lia.
  - simpl. rewrite lookup_insert_eq. intros [= <-]. simpl. lia.
Qed.

(** C6. After [RATE_LIMIT] requests of one client within one window (the
    one in force once the first of them has been counted), the next request
    of that client inside the window is answered 429 with [retryAfter], the
    seconds until [resetTime], strictly positive; once the window has
    elapsed the entry is reset to count 1 with a new [resetTime] and the
    request is not rejected. *)
Theorem rate_limit_then_reset (store : gmap string RateEntry) (k : string)
    (first : Env * Request) (rest : list (Env * Request)) (opened : RateEntry) :
  (∀ e, store !! k = Some e → 0 <= count e) →
  clientIp_of first.2 = k →
  store_after (POST store first.1 first.2) !! k = Some opened →
  Z.of_nat (length (first :: rest)) = RATE_LIMIT →
  Forall (λ call, clientIp_of call.2 = k ∧ now call.1 < resetTime opened) rest →
  let R := resetTime opened in
  let st := serve store (first :: rest) in
  (∃ e, st !! k = Some e ∧ resetTime e = R ∧ RATE_LIMIT <= count e)
  ∧ (∀ env rq, clientIp_of rq = k → now env < R →
       ∃ msg rid retryAfter,
         response (POST st env rq)
         = {| status := 429; body := RateLimitBody msg rid retryAfter |}
         ∧ retryAfter = Math_ceil (inject_Z (R - now env) / 1000)
         ∧ 0 < retryAfter
         ∧ store_after (POST st env rq) = st)
  ∧ (∀ env rq, clientIp_of rq = k → R <= now env →
       status (response (POST st env rq)) ≠ 429
       ∧ store_after (POST st env rq) !! k
         = Some {| count := 1; resetTime := now env + RATE_WINDOW |}).
Proof.
  intros Hpos Hip Hopened Hlen Hall R st.
  assert (Hfirst : 1 <= count opened).
  { rewrite POST_store_after, Hip in Hopened.
    by apply (rate_limit_check_counted store k (now first.1)). }
  assert (Hst : ∃ e, st !! k = Some e ∧ resetTime e = R ∧ RATE_LIMIT <= count e).
  { subst st.
    change (serve store (first :: rest))
      with (serve (store_after (POST store first.1 first.2)) rest).
    destruct (serve_counts k rest _ opened Hopened Hall) as (e' & He' & Hreset & Hcount).
    exists e'. split_and!; [done..|]. simpl in Hlen. lia. }
  split; [done|]. destruct Hst as (e & He & Hreset & Hcount). split.
  - intros env rq Hk Hnow.
    pose proof (rate_limit_check_full st k (now env) _ He) as Hfull.
    rewrite Hreset in Hfull. specialize (Hfull Hnow Hcount).
    unfold POST. rewrite Hk, Hfull. simpl.
    eexists _, _, _. split; [reflexivity|]. split; [done|]. split; [|done].
    apply Math_ceil_pos. lia.
  - intros env rq Hk Hnow.
    pose proof (rate_limit_check_expired st k (now env) _ He) as Hexp.
    rewrite Hreset in Hexp. specialize (Hexp Hnow).
    split.
    + apply POST_proceed_status. by rewrite Hk, Hexp.
    + rewrite POST_store_after, Hk, Hexp. simpl. by rewrite lookup_insert_eq.
Qed.

Lemma rate_limit_then_reset_witness :
  let call := (sample_env black_image (Throws "down") 1000,
               sample_request (Some sample_file) None None) in
  let st := serve ∅ (replicate 100 call) in
  (∃ msg rid retryAfter,
     response (POST st (sample_env black_image (Throws "down") 2500)
                 (sample_request (Some sample_file) None None))
     = {| status := 429; body := RateLimitBody msg rid retryAfter |}
     ∧ retryAfter = 3599)
  ∧ status (response (POST st (sample_env black_image (Throws "down") 3601000)
                        (sample_request (Some sample_file) None None))) ≠ 429.
Proof.
  intros call st.
  destruct (rate_limit_then_reset ∅ "10.0.0.7" call (replicate 99 call)
              {| count := 1; resetTime := 3601000 |})
    as (_ & Hwithin & Hafter).
  - intros e He. by rewrite lookup_empty in He.
  - reflexivity.
  - reflexivity.
  - reflexivity.
  - apply Forall_replicate. split; [reflexivity|]. simpl. lia.
  - split.
    + destruct (Hwithin (sample_env black_image (Throws "down") 2500)
                  (sample_request (Some sample_file) None None))
        as (msg & rid & retryAfter & Hresp & Hretry & _); [reflexivity | simpl; lia |].
      exists msg, rid, retryAfter. split; [exact Hresp|].
      rewrite Hretry. reflexivity.
    + apply (Hafter (sample_env black_image (Throws "down") 3601000)
               (sample_request (Some sample_file) None None)); [reflexivity | simpl; lia].
Defined.

(** ** The paths through the handler *)

(** Splits a membership in an explicit list of events into its cases and
    drops those on another kind of event. *)
Ltac event_cases H :=
  repeat first
    [ apply elem_of_nil in H; destruct H
    | apply elem_of_cons in H as [H | H]; [try discriminate H |] ].

(** The body ends in exactly one of three ways: before the detector with a
    400 (and at most console errors), before the detector with an exception,
    or in the detector. *)
Lemma analyze_cases (env : Env) (request : Request) (a : AuditLog) :
  (∃ msg a' evs,
     analyze env request a
     = Returned (json_status (ErrorBody msg (requestId env)) 400) a' evs
     ∧ ∀ e, e ∈ evs → ∃ t, e = ConsoleError t)
  ∨ (∃ m a', analyze env request a = Thrown m a' [])
  ∨ (∃ fd file buffer metadata raw a',
       ReachesDetector env request fd file buffer metadata raw
       ∧ analyze env request a
         = detect env a' fd buffer
             (default 0 (meta_width metadata)) (default 0 (meta_height metadata)) raw).
Proof.
  unfold analyze.
  destruct (formData request) as [fd|m] eqn:Hform; [|right; left; eauto].
  destruct (form_image fd) as [file|] eqn:Hfile;
    [|left; eexists _, _, _; split; [done|]; intros e He; event_cases He].
  destruct (file_size file >? MAX_FILE_SIZE) eqn:Hsize;
    [left; eexists _, _, _; split; [done|]; intros e He; event_cases He|].
  destruct (String.eqb _ EmptyString || negb _) eqn:Hfmt;
    [left; eexists _, _, _; split; [done|]; intros e He; event_cases He|].
  destruct (file_arrayBuffer file) as [buffer|m] eqn:Hbuf; [|right; left; eauto].
  destruct (validate_image env buffer) as [metadata|m] eqn:Hmeta;
    [|left; eexists _, _, _; split; [done|]].
  - destruct (sharp_raw env buffer) as [raw|m] eqn:Hraw; [|right; left; eauto].
    right; right. eexists fd, file, buffer, metadata, raw, _. split; [|reflexivity].
    apply orb_false_iff in Hfmt as [_ Hfmt]. apply negb_false_iff in Hfmt.
    constructor; try done. rewrite Z.gtb_ltb in Hsize. lia.
  - intros e He. apply list_elem_of_singleton in He. eauto.
Qed.

Lemma detect_not_thermal (env : Env) a fd buffer w h raw :
  classification fd raw = false →
  detect env a fd buffer w h raw
  = Returned (json not_thermal_body) a (detection_events fd raw).
Proof. unfold detect, classification. by intros ->. Qed.

Lemma detect_vision_fails (env : Env) a fd buffer w h raw visionError :
  classification fd raw = true →
  vision env buffer = Throws visionError →
  detect env a fd buffer w h raw
  = Returned (json vision_fallback_body) a
      (detection_events fd raw
       ++ [VisionCall buffer; ConsoleError ("OpenAI Vision API error: " +:+ visionError)]).
Proof. unfold detect, classification, analyze_thermal. by intros -> ->. Qed.

Lemma detect_vision_ok (env : Env) a fd buffer w h raw visionResult :
  classification fd raw = true →
  vision env buffer = Ok visionResult →
  detect env a fd buffer w h raw
  = assemble env a true w h visionResult (detection_events fd raw ++ [VisionCall buffer]).
Proof. unfold detect, classification, analyze_thermal. by intros -> ->. Qed.

(** A request whose detector line is on the console went through the rate
    limiter and every check, and the line is the one of its decoded image. *)
Lemma POST_detected (store : gmap string RateEntry) (env : Env) (request : Request) d :
  ThermalDetectionLog d ∈ events (POST store env request) →
  ∃ fd file buffer metadata raw a' st',
    ReachesDetector env request fd file buffer metadata raw
    ∧ rate_limit_check store (clientIp_of request) (now env) = (Proceed, st')
    ∧ d = detection_log fd raw
    ∧ detector_outcome st'
        (detect env a' fd buffer (default 0 (meta_width metadata))
           (default 0 (meta_height metadata)) raw)
        (POST store env request).
Proof.
  unfold POST.
  destruct (rate_limit_check _ _ _) as [[r|] st'] eqn:Hrl; simpl.
  { intros Hin. event_cases Hin. }
  destruct (analyze_cases env request (initial_auditLog env (clientIp_of request)))
    as [(msg & a' & evs & -> & Hevs) | [(m & a' & ->)
        | (fd & file & buffer & metadata & raw & a' & Hreach & ->)]]; simpl.
  - intros Hin. apply Hevs in Hin as [t Ht]. done.
  - intros Hin. event_cases Hin.
  - intros Hin. exists fd, file, buffer, metadata, raw, a', st'.
    split; [done|]. split; [done|].
    revert Hin. unfold detect, analyze_thermal, assemble, detection_events, classification.
    repeat case_match; simplify_eq; simpl; intros Hin; event_cases Hin; by simplify_eq.
Qed.

(** The inference service is called only for a submission that got to the
    detector and was classified thermal, and on the bytes of its file. *)
Lemma POST_vision_called (store : gmap string RateEntry) (env : Env) (request : Request) b :
  VisionCall b ∈ events (POST store env request) →
  ∃ fd file metadata raw a' st',
    ReachesDetector env request fd file b metadata raw
    ∧ rate_limit_check store (clientIp_of request) (now env) = (Proceed, st')
    ∧ classification fd raw = true
    ∧ detector_outcome st'
        (detect env a' fd b (default 0 (meta_width metadata))
           (default 0 (meta_height metadata)) raw)
        (POST store env request).
Proof.
  unfold POST.
  destruct (rate_limit_check _ _ _) as [[r|] st'] eqn:Hrl; simpl.
  { intros Hin. event_cases Hin. }
  destruct (analyze_cases env request (initial_auditLog env (clientIp_of request)))
    as [(msg & a' & evs & -> & Hevs) | [(m & a' & ->)
        | (fd & file & buffer & metadata & raw & a' & Hreach & ->)]]; simpl.
  - intros Hin. apply Hevs in Hin as [t Ht]. done.
  - intros Hin. event_cases Hin.
  - intros Hin. 
    assert (buffer = b ∧ classification fd raw = true) as [-> Hcl].
    { revert Hin. unfold detect, analyze_thermal, assemble, detection_events, classification.
      destruct (isThermalImage _ _ _); simpl;
        repeat case_match; simplify_eq; simpl; intros Hin; event_cases Hin; by simplify_eq. }
    exists fd, file, metadata, raw, a', st'. split_and!; try done.
    revert Hin. unfold detect, analyze_thermal, assemble.
    repeat case_match; simplify_eq; simpl; done.
Qed.

(** ** The fallback on inference failure *)

(** C1. A request classified thermal whose inference block fails is answered
    with status 200, no hotspots, severity unknown, confidence 0.5 and the
    metadata with the unavailability message and the marker
    [vision_api_error]; the failure is not passed on. *)
Theorem inference_failure_answered_200 (store : gmap string RateEntry) (env : Env)
    (request : Request) (d : DetectionLog) :
  ThermalDetectionLog d ∈ events (POST store env request) →
  log_isThermalImage d = true →
  (∀ b, VisionCall b ∈ events (POST store env request) → ∃ e, vision env b = Throws e) →
  response (POST store env request)
  = {| status := 200;
       body := ShortBody [] "unknown" 0.5
                 {| sm_totalHotspots := 0; sm_maxTemperature := None; sm_affectedArea := 0;
                    sm_message := "Advanced analysis temporarily unavailable. Please try again.";
                    sm_error := Some "vision_api_error"%string |} |}.
Proof.
  intros Hd Hthermal Hfail.
  destruct (POST_detected _ _ _ _ Hd)
    as (fd & file & buffer & metadata & raw & a' & st' & _ & _ & -> & Hout).
  change (classification fd raw = true) in Hthermal. rename Hthermal into Hcl.
  destruct (vision env buffer) as [vr|e] eqn:Hv.
  - rewrite (detect_vision_ok _ _ _ _ _ _ _ _ Hcl Hv) in Hout.
    unfold assemble in Hout. simpl in Hout.
    destruct (Hfail buffer) as [e He]; [|congruence].
    rewrite Hout. simpl. do 2 apply list_elem_of_further. apply list_elem_of_here.
  - rewrite (detect_vision_fails _ _ _ _ _ _ _ _ Hcl Hv) in Hout.
    simpl in Hout. by rewrite Hout.
Qed.

Lemma inference_failure_answered_200_witness :
  response (POST ∅ (sample_env black_image (Throws "socket hang up") 1000)
              (sample_request (Some sample_file) None None))
  = {| status := 200;
       body := ShortBody [] "unknown" 0.5
                 {| sm_totalHotspots := 0; sm_maxTemperature := None; sm_affectedArea := 0;
                    sm_message := "Advanced analysis temporarily unavailable. Please try again.";
                    sm_error := Some "vision_api_error"%string |} |}.
Proof.
  eapply inference_failure_answered_200.
  - vm_compute. apply list_elem_of_further, list_elem_of_here.
  - reflexivity.
  - intros b _. by eexists.
Defined.

(** ** The short answer for a submission that is not thermal *)

Lemma declared_visual_not_thermal (fd : FormData) (raw : RawImage) :
  form_imageType fd = Some "visual"%string →
  form_demoMode fd ≠ Some "true"%string →
  classification fd raw = false.
Proof.
  intros Hvisual Hdemo. unfold classification, isThermalImage, imageType_of, demoMode_of.
  rewrite Hvisual, bool_decide_eq_false_2 by done. done.
Qed.

(** C3. A submission classified as not thermal (as is every submission
    declared visual with demo mode unset) is answered, with status 200, by
    exactly the empty result with severity none and confidence 0.95, and the
    inference service is not called. *)
Theorem non_thermal_short_circuit (store : gmap string RateEntry) (env : Env)
    (request : Request) (d : DetectionLog) :
  ThermalDetectionLog d ∈ events (POST store env request) →
  (log_isThermalImage d = false
   ∨ ∃ fd, formData request = Ok fd ∧ form_imageType fd = Some "visual"%string
           ∧ form_demoMode fd ≠ Some "true"%string) →
  response (POST store env request)
  = {| status := 200;
       body := ShortBody [] "none" 0.95
                 {| sm_totalHotspots := 0; sm_maxTemperature := None; sm_affectedArea := 0;
                    sm_message := "Image does not appear to be a thermal image";
                    sm_error := None |} |}
  ∧ ∀ b, VisionCall b ∉ events (POST store env request).
Proof.
  intros Hd Hnot.
  destruct (POST_detected _ _ _ _ Hd)
    as (fd & file & buffer & metadata & raw & a' & st' & Hreach & _ & -> & Hout).
  assert (Hfalse : classification fd raw = false).
  { destruct Hnot as [Hnot | (fd' & Hform & Hvisual & Hdemo)]; [exact Hnot|].
    rewrite (reach_form _ _ _ _ _ _ _ Hreach) in Hform. simplify_eq.
    by apply declared_visual_not_thermal. }
  rewrite (detect_not_thermal _ _ _ _ _ _ _ Hfalse) in Hout. simpl in Hout.
  rewrite Hout. simpl. split; [done|].
  intros b Hb. unfold detection_events in Hb. event_cases Hb.
Qed.

Lemma non_thermal_short_circuit_witness :
  let o := POST ∅ (sample_env black_image (Throws "not called") 1000)
             (sample_request (Some sample_file) (Some "visual"%string) None) in
  response o
  = {| status := 200;
       body := ShortBody [] "none" 0.95
                 {| sm_totalHotspots := 0; sm_maxTemperature := None; sm_affectedArea := 0;
                    sm_message := "Image does not appear to be a thermal image";
                    sm_error := None |} |}
  ∧ ∀ b, VisionCall b ∉ events o.
Proof.
  eapply non_thermal_short_circuit.
  - vm_compute. apply list_elem_of_further, list_elem_of_here.
  - left. reflexivity.
Defined.

(** ** The assembled answer *)

Lemma merged_confidence_cases (given : option Q) :
  let conf := merged_confidence 0.85 (Some {| ai_analysis := EmptyString;
                                              ai_recommendations := [];
                                              ai_aiModel := EmptyString;
                                              ai_confidence := num_or given 0.85 |}) in
  (∀ c, given = Some c → (1 < c)%Q → conf = (c / 100)%Q)
  ∧ (∀ c, given = Some c → ¬ (c == 0)%Q → (c <= 1)%Q → conf = c)
  ∧ (given = None ∨ (∃ c, given = Some c ∧ (c == 0)%Q) → conf = 0.85%Q).
Proof.
  unfold merged_confidence; simpl. split_and!.
  - intros c -> Hc. simpl.
    assert (Ht : truthy c = true) by (apply truthy_true; lra).
    rewrite Ht, Ht. by rewrite (proj2 (Qgtb_true c 1) Hc).
  - intros c -> Hnz Hc. simpl.
    apply truthy_true in Hnz. rewrite Hnz, Hnz.
    by rewrite (proj2 (Qgtb_false c 1) Hc).
  - intros [-> | (c & -> & Hz)]; simpl; [done|].
    apply truthy_false in Hz. by rewrite Hz.
Qed.

Section SuccessfulInference.

(** A request for which the inference service was called, on [buffer], and
    whose inference block ended with [visionResult]. *)
Variables (store : gmap string RateEntry) (env : Env) (request : Request).
Variables (buffer : list Byte.byte) (visionResult : VisionResult).
Hypothesis Hcall : VisionCall buffer ∈ events (POST store env request).
Hypothesis Hv : vision env buffer = Ok visionResult.

(** The answer on successful inference. *)
Lemma POST_assembled :
  ∃ width height,
    response (POST store env request)
    = json (finalResponse env true width height
              (str_or (vr_severity visionResult) "medium")
              (extracted_hotspots visionResult) (extracted_maxTemp visionResult)
              (Some (ai_metadata visionResult))).
Proof.
  destruct (POST_vision_called _ _ _ _ Hcall)
    as (fd & file & metadata & raw & a' & st' & _ & _ & Hcl & Hout).
  rewrite (detect_vision_ok _ _ _ _ _ _ _ _ Hcl Hv) in Hout.
  unfold assemble in Hout. simpl in Hout. rewrite Hout. simpl. eauto.
Qed.

(** C4. The hotspots of the assembled answer are the first 50 of the
    inference answer, in their order: exactly 50 when it has more, all of
    them when it has 50 or fewer; the answer is given either way. *)
Theorem hotspots_capped_at_50 :
  let given := normalize_hotspot <$> default [] (vr_hotspots visionResult) in
  ∃ rid severity hotspots confidence metadata,
    response (POST store env request)
    = {| status := 200; body := FullBody rid severity hotspots confidence metadata |}
    ∧ (50 < length given → length hotspots = 50
                           ∧ ∀ i, i < 50 → hotspots !! i = given !! i)%nat
    ∧ (length given ≤ 50 → hotspots = given)%nat.
Proof.
  intros given.
  destruct POST_assembled as (w & h & ->).
  unfold finalResponse, json, slice50. eexists _, _, _, _, _. split; [reflexivity|].
  fold given. change (extracted_hotspots visionResult) with given. split.
  - intros Hlen. split.
    + rewrite length_take. lia.
    + intros i Hi. by apply lookup_take_lt.
  - intros Hlen. by apply take_ge.
Qed.

(** C5, amended. On successful inference the top-level confidence is the
    service's value divided by 100 when that value is greater than 1, the
    value itself when it is not zero and at most 1, and 0.85 when the service
    gives none or gives 0; it replaces the base confidence.  It lies between
    0 and 1 whenever the service gives none or a value between 0 and 100. *)
Theorem confidence_normalized :
  let given := vr_confidence visionResult in
  ∃ conf, answer_confidence (response (POST store env request)) = Some conf
    ∧ (∀ c, given = Some c → (1 < c)%Q → conf = (c / 100)%Q)
    ∧ (∀ c, given = Some c → ¬ (c == 0)%Q → (c <= 1)%Q → conf = c)
    ∧ (given = None ∨ (∃ c, given = Some c ∧ (c == 0)%Q) → conf = 0.85%Q)
    ∧ (given = None ∨ (∃ c, given = Some c ∧ (0 <= c)%Q ∧ (c <= 100)%Q) →
       (0 <= conf)%Q ∧ (conf <= 1)%Q).
Proof.
  intros given.
  destruct POST_assembled as (w & h & ->).
  eexists. split; [reflexivity|].
  destruct (merged_confidence_cases given) as (Hbig & Hsmall & Hdefault).
  unfold finalResponse, base_confidence, ai_metadata, aiConfidence.
  fold given. unfold merged_confidence in *. simpl in *.
  split_and!; [done..|].
  intros [Hnone | (c & Hc & Hlo & Hhi)].
  - rewrite (Hdefault (or_introl Hnone)). split; [by vm_compute|by vm_compute].
  - destruct (Qlt_le_dec 1 c) as [Hgt | Hle].
    + rewrite (Hbig c Hc Hgt). split.
      * apply Qle_shift_div_l; [reflexivity|lra].
      * apply Qle_shift_div_r; [reflexivity|lra].
    + destruct (Qeq_dec c 0) as [Hz | Hnz].
      * rewrite (Hdefault (or_intror (ex_intro _ c (conj Hc Hz)))).
        split; by vm_compute.
      * rewrite (Hsmall c Hc Hnz Hle). split; lra.
Qed.

(** C7, amended. Every hotspot of the assembled answer comes from a hotspot
    of the inference answer, and its [x] and [y] are that hotspot's values
    rounded to the nearest integer, 0 when the value is missing; they are not
    clamped: they lie between 0 and 100 whenever the service's values do. *)
Theorem coordinates_rounded (h : Hotspot) :
  h ∈ answer_hotspots (response (POST store env request)) →
  ∃ given, given ∈ default [] (vr_hotspots visionResult)
    ∧ rounded_coordinate (raw_x given) (h_x h)
    ∧ rounded_coordinate (raw_y given) (h_y h)
    ∧ (∀ v, raw_x given = Some v → (0 <= v)%Q → (v <= 100)%Q → 0 <= h_x h <= 100)
    ∧ (∀ v, raw_y given = Some v → (0 <= v)%Q → (v <= 100)%Q → 0 <= h_y h <= 100).
Proof.
  destruct POST_assembled as (w & ht & ->).
  unfold answer_hotspots, finalResponse, json, slice50, extracted_hotspots. simpl.
  intros Hh. apply elem_of_take in Hh as (i & Hi & _).
  apply list_lookup_fmap_Some in Hi as (given & -> & Hgiven).
  exists given. split; [by eapply list_elem_of_lookup_2|].
  pose proof (num_or_rounded (raw_x given)) as Hx.
  pose proof (num_or_rounded (raw_y given)) as Hy.
  simpl. split_and!; [done..| |].
  - intros v Hsome Hlo Hhi. rewrite Hsome in Hx |- *.
    by apply (nearest_integer_range v _ 0 100 Hx).
  - intros v Hsome Hlo Hhi. rewrite Hsome in Hy |- *.
    by apply (nearest_integer_range v _ 0 100 Hy).
Qed.

End SuccessfulInference.

(** *** The cap at work *)

Lemma hotspots_capped_at_50_witness :
  ∃ rid severity hotspots confidence metadata,
    response (POST ∅ (sample_env black_image
                        (Ok (sample_answer (replicate 60 (sample_hotspot (Some 10%Q) None))
                               None)) 1000)
                (sample_request (Some sample_file) None None))
    = {| status := 200; body := FullBody rid severity hotspots confidence metadata |}
    ∧ length hotspots = 50%nat.
Proof.
  destruct (hotspots_capped_at_50 ∅
              (sample_env black_image
                 (Ok (sample_answer (replicate 60 (sample_hotspot (Some 10%Q) None)) None))
                 1000)
              (sample_request (Some sample_file) None None)
              sample_bytes
              (sample_answer (replicate 60 (sample_hotspot (Some 10%Q) None)) None))
    as (rid & severity & hotspots & confidence & metadata & Hresp & Hmore & _).
  - vm_compute. do 2 apply list_elem_of_further. apply list_elem_of_here.
  - reflexivity.
  - exists rid, severity, hotspots, confidence, metadata. split; [exact Hresp|].
    apply Hmore. vm_compute. lia.
Defined.

(** *** The confidence at work *)

(** C5, as stated, fails: a confidence of 0 given by the service is not left
    unchanged, the answer carries 0.85. *)
Lemma confidence_zero_not_kept :
  ¬ (∀ (store : gmap string RateEntry) (env : Env) (request : Request)
       (buffer : list Byte.byte) (visionResult : VisionResult),
       VisionCall buffer ∈ events (POST store env request) →
       vision env buffer = Ok visionResult →
       ∃ conf, answer_confidence (response (POST store env request)) = Some conf
               ∧ (conf == spec_confidence (vr_confidence visionResult))%Q).
Proof.
  intros Hclaim.
  destruct (Hclaim ∅ (sample_env black_image (Ok (sample_answer [] (Some 0%Q))) 1000)
              (sample_request (Some sample_file) None None)
              sample_bytes (sample_answer [] (Some 0%Q)))
    as (conf & Hconf & Heq).
  - vm_compute. do 2 apply list_elem_of_further. apply list_elem_of_here.
  - reflexivity.
  - vm_compute in Hconf. injection Hconf as <-. vm_compute in Heq. discriminate Heq.
Qed.

Lemma confidence_normalized_witness :
  ∃ conf,
    answer_confidence
      (response (POST ∅ (sample_env black_image (Ok (sample_answer [] (Some 85%Q))) 1000)
                   (sample_request (Some sample_file) None None))) = Some conf
    ∧ conf = (85 / 100)%Q ∧ (conf == 0.85)%Q.
Proof.
  destruct (confidence_normalized ∅
              (sample_env black_image (Ok (sample_answer [] (Some 85%Q))) 1000)
              (sample_request (Some sample_file) None None)
              sample_bytes (sample_answer [] (Some 85%Q)))
    as (conf & Hconf & Hbig & _).
  - vm_compute. do 2 apply list_elem_of_further. apply list_elem_of_here.
  - reflexivity.
  - exists conf. split; [exact Hconf|].
    rewrite (Hbig 85%Q eq_refl ltac:(reflexivity)). split; reflexivity.
Defined.

(** A confidence of 0.4 is left as it is. *)
Example confidence_point_four :
  answer_confidence
    (response (POST ∅ (sample_env black_image (Ok (sample_answer [] (Some 0.4%Q))) 1000)
                 (sample_request (Some sample_file) None None))) = Some 0.4%Q.
Proof. reflexivity. Qed.

(** *** The coordinates at work *)

(** C7, as stated, fails: the coordinates are rounded but not clamped; an
    [x] of 150 given by the service is answered as 150. *)
Lemma coordinate_not_clamped :
  ¬ (∀ (store : gmap string RateEntry) (env : Env) (request : Request) (h : Hotspot),
       h ∈ answer_hotspots (response (POST store env request)) →
       0 <= h_x h <= 100 ∧ 0 <= h_y h <= 100).
Proof.
  intros Hclaim.
  destruct (Hclaim ∅
              (sample_env black_image
                 (Ok (sample_answer [sample_hotspot (Some 150%Q) (Some 20%Q)] None)) 1000)
              (sample_request (Some sample_file) None None)
              (normalize_hotspot (sample_hotspot (Some 150%Q) (Some 20%Q))))
    as [[_ Hx] _].
  - vm_compute. apply list_elem_of_here.
  - vm_compute in Hx. by apply Hx.
Qed.

Lemma coordinates_rounded_witness :
  ∃ given, given ∈ [sample_hotspot (Some (997 # 10)) None]
    ∧ rounded_coordinate (raw_x given) 100
    ∧ rounded_coordinate (raw_y given) 0.
Proof.
  assert (Hcalled :
    VisionCall sample_bytes
    ∈ events (POST ∅
                (sample_env black_image
                   (Ok (sample_answer [sample_hotspot (Some (997 # 10)) None] None)) 1000)
                (sample_request (Some sample_file) None None))).
  { vm_compute. do 2 apply list_elem_of_further. apply list_elem_of_here. }
  destruct (coordinates_rounded ∅
              (sample_env black_image
                 (Ok (sample_answer [sample_hotspot (Some (997 # 10)) None] None)) 1000)
              (sample_request (Some sample_file) None None)
              sample_bytes
              (sample_answer [sample_hotspot (Some (997 # 10)) None] None)
              Hcalled eq_refl
              (normalize_hotspot (sample_hotspot (Some (997 # 10)) None)))
    as (given & Hin & Hx & Hy & _).
  - vm_compute. apply list_elem_of_here.
  - exists given. split_and!; [exact Hin | exact Hx | exact Hy].
Defined.

(** ** The classification *)

Lemma js_gt_above (a : jsnum) (c : Q) : js_gt a c = true ↔ above a c.
Proof.
  unfold js_gt, above. destruct a as [q|].
  - rewrite Qgtb_true. split; [eauto|]. by intros (q' & [= <-] & Hq).
  - split; [done|]. by intros (q' & [=] & _).
Qed.

Lemma js_lt_below (a : jsnum) (c : Q) : js_lt a c = true ↔ below a c.
Proof.
  unfold js_lt, below. destruct a as [q|].
  - rewrite Qltb_true. split; [eauto|]. by intros (q' & [= <-] & Hq).
  - split; [done|]. by intros (q' & [=] & _).
Qed.

Lemma nat_gt_true (n c : nat) : nat_gt n c = true ↔ (c < n)%nat.
Proof. unfold nat_gt. apply Nat.ltb_lt. Qed.

Lemma nat_lt_true (n c : nat) : nat_lt n c = true ↔ (n < c)%nat.
Proof. unfold nat_lt. apply Nat.ltb_lt. Qed.

Lemma thermalColorPattern_spec (f : Features) :
  thermalColorPattern f = true ↔ spec_thermalColorPattern f.
Proof.
  unfold thermalColorPattern, spec_thermalColorPattern, hasThermalBias, hasModerateColors,
    hasColorGradient, hasHighColorVariance, spec_thermalBias, spec_moderateColors,
    spec_colorGradient, spec_highVariance.
  repeat first [rewrite orb_true_iff | rewrite andb_true_iff].
  rewrite !Qgtb_true, !js_gt_above, !js_lt_below, !nat_gt_true, !nat_lt_true.
  tauto.
Qed.

Lemma imageType_of_is (fd : FormData) (t : string) :
  t ≠ "auto"%string → t ≠ EmptyString →
  String.eqb (imageType_of fd) t = true ↔ form_imageType fd = Some t.
Proof.
  intros Hauto Hempty. rewrite String.eqb_eq. unfold imageType_of, str_or.
  destruct (form_imageType fd) as [s|]; [|split; [congruence|done]].
  destruct (String.eqb s EmptyString) eqn:Hs.
  - apply String.eqb_eq in Hs as ->. split; congruence.
  - split; congruence.
Qed.

Lemma isThermalImage_spec (fd : FormData) (f : Features) :
  isThermalImage (demoMode_of fd) (imageType_of fd) f = true
  ↔ spec_thermal (form_demoMode fd) (form_imageType fd) f.
Proof.
  unfold isThermalImage, spec_thermal, demoMode_of.
  repeat first [rewrite orb_true_iff | rewrite andb_true_iff].
  rewrite negb_true_iff, <- not_true_iff_false.
  rewrite !imageType_of_is by done.
  rewrite bool_decide_eq_true, thermalColorPattern_spec. tauto.
Qed.

(** C2. The classification of a decoded submission is the one described:
    thermal exactly when demo mode is set, or thermal is declared and the
    pattern holds, or visual is not declared and the pattern holds, the
    pattern being the stated disjunction over the four features.  It depends
    on the features and the two hints only. *)
Theorem classification_as_described (store : gmap string RateEntry) (env : Env)
    (request : Request) (d : DetectionLog) :
  ThermalDetectionLog d ∈ events (POST store env request) →
  ∃ fd file buffer metadata raw,
    ReachesDetector env request fd file buffer metadata raw
    ∧ let f := features_of (sample_image raw) in
      (log_isThermalImage d = true
       ↔ spec_thermal (form_demoMode fd) (form_imageType fd) f)
      ∧ (log_thermalColorPattern d = true ↔ spec_thermalColorPattern f)
      ∧ (form_imageType fd = Some "visual"%string →
         (log_isThermalImage d = true ↔ form_demoMode fd = Some "true"%string)).
Proof.
  intros Hd.
  destruct (POST_detected _ _ _ _ Hd)
    as (fd & file & buffer & metadata & raw & a' & st' & Hreach & _ & -> & Hout).
  exists fd, file, buffer, metadata, raw. split; [done|]. simpl.
  rewrite isThermalImage_spec, thermalColorPattern_spec. split_and!; [done..|].
  intros Hvisual. unfold spec_thermal. rewrite Hvisual. split; [|auto].
  intros [Hdemo | [[[=] _] | [Hne _]]]; done.
Qed.

Lemma classification_as_described_witness :
  ∃ fd file buffer metadata raw,
    ReachesDetector (sample_env black_image (Throws "down") 1000)
      (sample_request (Some sample_file) (Some "thermal"%string) None)
      fd file buffer metadata raw
    ∧ spec_thermal (form_demoMode fd) (form_imageType fd) (features_of (sample_image raw)).
Proof.
  destruct (classification_as_described ∅ (sample_env black_image (Throws "down") 1000)
              (sample_request (Some sample_file) (Some "thermal"%string) None)
              {| log_isThermalImage := true; log_imageType := "thermal";
                 log_demoMode := false; log_thermalColorPattern := true;
                 log_redBias := 0; log_blueBias := 0;
                 log_highColorVariance := false; log_moderateColors := false;
                 log_colorGradient := false; log_thermalBias := false |})
    as (fd & file & buffer & metadata & raw & Hreach & Hthermal & _).
  - vm_compute. apply list_elem_of_further, list_elem_of_here.
  - exists fd, file, buffer, metadata, raw. split; [exact Hreach|].
    apply Hthermal. reflexivity.
Defined.

(** ** Binary64 arithmetic *)

Lemma b64_add_nan_r (x : spec_float) : b64_add x S754_nan = S754_nan.
Proof. by destruct x. Qed.

Lemma shr_1_digits (m : positive) (r s : bool) :
  1 < Z.pos (digits2_pos m) →
  ∃ m' r' s',
    shr_1 {| shr_m := Z.pos m; shr_r := r; shr_s := s |}
    = {| shr_m := Z.pos m'; shr_r := r'; shr_s := s' |}
    ∧ Z.pos (digits2_pos m') = Z.pos (digits2_pos m) - 1.
Proof.
  destruct m as [q|q|]; simpl; intros Hd; [| |lia].
  - eexists _, _, _. split; [reflexivity|]. lia.
  - eexists _, _, _. split; [reflexivity|]. lia.
Qed.

(** A mantissa shifted right by fewer places than it has digits stays
    positive. *)
Lemma shr_digits (p : positive) :
  ∀ (m : positive) (r s : bool),
    Z.pos p < Z.pos (digits2_pos m) →
    ∃ m' r' s',
      SpecFloat.iter_pos shr_1 p {| shr_m := Z.pos m; shr_r := r; shr_s := s |}
      = {| shr_m := Z.pos m'; shr_r := r'; shr_s := s' |}
      ∧ Z.pos (digits2_pos m') = Z.pos (digits2_pos m) - Z.pos p.
Proof.
  induction p as [p IH|p IH|]; intros m r s Hd; cbn [SpecFloat.iter_pos].
  - destruct (shr_1_digits m r s) as (m1 & r1 & s1 & -> & H1); [lia|].
    destruct (IH m1 r1 s1) as (m2 & r2 & s2 & -> & H2); [lia|].
    destruct (IH m2 r2 s2) as (m3 & r3 & s3 & -> & H3); [lia|].
    eexists _, _, _. split; [reflexivity|]. lia.
  - destruct (IH m r s) as (m2 & r2 & s2 & -> & H2); [lia|].
    destruct (IH m2 r2 s2) as (m3 & r3 & s3 & -> & H3); [lia|].
    eexists _, _, _. split; [reflexivity|]. lia.
  - destruct (shr_1_digits m r s) as (m1 & r1 & s1 & -> & H1); [lia|].
    eexists _, _, _. split; [reflexivity|]. lia.
Qed.

Lemma shr_fexp_positive (m : positive) (e : Z) (l : location) :
  -1074 <= e →
  ∃ m' r s e',
    shr_fexp 53 1024 (Z.pos m) e l = ({| shr_m := Z.pos m'; shr_r := r; shr_s := s |}, e')
    ∧ -1074 <= e'.
Proof.
  intros He. unfold shr_fexp, shr, fexp, emin. simpl Zdigits2.
  assert (Hrec : ∃ r s, shr_record_of_loc (Z.pos m) l
                        = {| shr_m := Z.pos m; shr_r := r; shr_s := s |}).
  { destruct l as [|[]]; simpl; eauto. }
  destruct Hrec as (r & s & ->).
  destruct (Z.max (Z.pos (digits2_pos m) + e - 53) (3 - 1024 - 53) - e) as [|n|n] eqn:Hn.
  - eexists _, _, _, _. split; [reflexivity|done].
  - destruct (shr_digits n m r s) as (m' & r' & s' & -> & _); [lia|].
    eexists _, _, _, _. split; [reflexivity|lia].
  - eexists _, _, _, _. split; [reflexivity|done].
Qed.

(** Rounding a positive mantissa whose exponent is not below the least one
    gives a positive number or the infinity, never zero. *)
Lemma binary_round_aux_positive (sx : bool) (m : positive) (e : Z) (l : location) :
  -1074 <= e →
  (∃ m' e', binary_round_aux 53 1024 sx (Z.pos m) e l = S754_finite sx m' e')
  ∨ binary_round_aux 53 1024 sx (Z.pos m) e l = S754_infinity sx.
Proof.
  intros He. unfold binary_round_aux.
  destruct (shr_fexp_positive m e l He) as (m1 & r1 & s1 & e1 & -> & He1).
  assert (Hround :
    ∃ m2, round_nearest_even (shr_m {| shr_m := Z.pos m1; shr_r := r1; shr_s := s1 |})
            (loc_of_shr_record {| shr_m := Z.pos m1; shr_r := r1; shr_s := s1 |})
          = Z.pos m2).
  { unfold loc_of_shr_record, round_nearest_even, shr_m.
    destruct r1, s1; try destruct (Z.even _); try (by eexists);
      exists (m1 + 1)%positive; reflexivity. }
  destruct Hround as (m2 & ->).
  destruct (shr_fexp_positive m2 e1 loc_Exact He1) as (m3 & r3 & s3 & e3 & -> & He3).
  simpl. destruct (e3 <=? 1024 - 53); eauto.
Qed.

Lemma b64_of_Z_positive (p : positive) :
  (∃ m e, b64_of_Z (Z.pos p) = S754_finite false m e)
  ∨ b64_of_Z (Z.pos p) = S754_infinity false.
Proof.
  unfold b64_of_Z, binary_normalize, binary_round.
  destruct (shl_align p 0 _) as [mz ez] eqn:Hal.
  apply binary_round_aux_positive.
  unfold shl_align, fexp, emin in Hal.
  destruct (Z.max (Z.pos (digits2_pos p) + 0 - 53) (3 - 1024 - 53) - 0) eqn:Hd;
    injection Hal as <- <-; lia.
Qed.

(** Zero divided by a count that is not zero is zero. *)
Lemma b64_div_zero_count (sign : bool) (n : nat) :
  n ≠ 0%nat → b64_div (S754_zero sign) (b64_of_Z (Z.of_nat n)) = S754_zero sign.
Proof.
  intros Hn. destruct (Z.of_nat n) as [|p|p] eqn:Hp; [lia| |lia].
  destruct (b64_of_Z_positive p) as [(m & e & ->) | ->]; simpl; by destruct sign.
Qed.


(** ** Zero colour variance *)



Lemma foldl_preserves {A B : Type} (P : A → Prop) (f : A → B → A) (l : list B) :
  ∀ a, P a → (∀ a b, b ∈ l → P a → P (f a b)) → P (foldl f a l).
Proof.
  induction l as [|b l IH]; intros a Ha Hstep; [done|].
  simpl. apply IH.
  - apply Hstep; [apply list_elem_of_here | done].
  - intros a' b' Hb'. apply Hstep. by apply list_elem_of_further.
Qed.

(** A grey pixel has no colour variance: one third of [c + c + c] is [c]
    again for each of the 256 values of a byte. *)
Lemma grey_pixel_variance (c : Byte.byte) :
  pixel_variance (Some (Byte.to_N c)) (Some (Byte.to_N c)) (Some (Byte.to_N c))
  = S754_zero false.
Proof. destruct c; vm_compute; reflexivity. Qed.

Lemma sample_pixel_grey (img : RawImage) (y x : nat) (s : SampleState) :
  zero_variance s → grey_at img y x → zero_variance (sample_pixel img y s x).
Proof.
  intros [sign Hs] (c & Hr & Hg & Hb).
  unfold zero_variance, sample_pixel. simpl. rewrite Hs, Hr, Hg, Hb.
  unfold read_channel in Hr. apply fmap_Some in Hr as (byte & _ & ->).
  rewrite grey_pixel_variance. destruct sign; by eexists.
Qed.

(** An image whose samples are all grey, an all-black one for instance, has
    a zero accumulator. *)
Lemma grey_image_zero_variance (img : RawImage) :
  (∀ y x, y ∈ stride_positions (info_height img) →
          x ∈ stride_positions (info_width img) → grey_at img y x) →
  zero_variance (sample_image img).
Proof.
  intros Hgrey. unfold sample_image.
  apply foldl_preserves.
  - by exists false.
  - intros s y Hy Hs. unfold sample_row. apply foldl_preserves; [done|].
    intros s' x Hx Hs'. apply sample_pixel_grey; [done|]. by apply Hgrey.
Qed.


(** ** Single-colour images *)









(** ** The audit trail *)

(** Which answers come with an audit record on the console: the assembled
    answer and the 500 of the outermost handler, and no other. *)
Lemma audit_record_paths (store : gmap string RateEntry) (env : Env) (request : Request) :
  (∃ a, AuditRecord a ∈ events (POST store env request))
  ↔ (status (response (POST store env request)) = 500
     ∨ ∃ rid severity hotspots confidence metadata,
         body (response (POST store env request))
         = FullBody rid severity hotspots confidence metadata).
Proof.
  unfold POST.
  destruct (rate_limit_check _ _ _) as [[r|] st'] eqn:Hrl; simpl.
  { split.
    - intros [a Hin]. event_cases Hin.
    - intros [? | (? & ? & ? & ? & ? & ?)]; done. }
  destruct (analyze_cases env request (initial_auditLog env (clientIp_of request)))
    as [(msg & a' & evs & -> & Hevs) | [(m & a' & ->)
        | (fd & file & buffer & metadata & raw & a' & Hreach & ->)]]; simpl.
  - split.
    + intros [a Hin]. apply Hevs in Hin as [t Ht]. done.
    + intros [? | (? & ? & ? & ? & ? & ?)]; done.
  - split; [auto|]. intros _. eexists. apply list_elem_of_further, list_elem_of_here.
  - unfold detect, analyze_thermal, assemble, detection_events.
    repeat case_match; simplify_eq; simpl.
    + split.
      * intros [a Hin]. event_cases Hin.
      * intros [? | (? & ? & ? & ? & ? & ?)]; done.
    + split; [|intros _; eexists; do 3 apply list_elem_of_further; apply list_elem_of_here].
      intros _. right. unfold finalResponse. eauto 10.
    + split.
      * intros [a Hin]. event_cases Hin.
      * intros [? | (? & ? & ? & ? & ? & ?)]; done.
Qed.

(** C9 at a submission without a file.  The handler answers 400; the audit
    record has been given the error, but no audit record is written. *)
Theorem audit_record_not_written_on_rejection :
  let o := POST ∅ (sample_env black_image (Throws "down") 1000)
             (sample_request None None None) in
  status (response o) = 400
  ∧ audit_details (auditLog_after o) = [("error"%string, DText "Invalid file upload")]
  ∧ audit_processingTime (auditLog_after o) = None
  ∧ ∀ a, AuditRecord a ∉ events o.
Proof.
  split_and!; [reflexivity..|].
  intros a Hin. vm_compute in Hin. event_cases Hin.
Qed.

(** ** The order of the rate limiter and the validator *)

(** C10, as stated, fails: a submission without a file is rejected by the
    validator after the rate limiter has counted it. *)
Lemma rejected_submission_is_counted :
  ¬ (∀ (store : gmap string RateEntry) (env : Env) (request : Request),
       status (response (POST store env request)) = 400 →
       store_after (POST store env request) = store).
Proof.
  intros Hclaim.
  specialize (Hclaim ∅ (sample_env black_image (Throws "down") 1000)
                (sample_request None None None) eq_refl).
  assert (Hlook : store_after (POST ∅ (sample_env black_image (Throws "down") 1000)
                                 (sample_request None None None)) !! "10.0.0.7"%string
                  = Some {| count := 1; resetTime := 3601000 |}) by reflexivity.
  rewrite Hclaim in Hlook. by rewrite lookup_empty in Hlook.
Qed.

(** C10, amended. The rate limiter runs first: whatever the submission, the
    client's counter is read and updated as the rate limiting check does
    before any validation; a request over the cap is answered 429 without
    its form being looked at; a request rejected by the validator has been
    counted; and the detector runs only for a request that passed both. *)
Theorem rate_limiter_before_validator (store : gmap string RateEntry) (env : Env)
    (request : Request) :
  let check := rate_limit_check store (clientIp_of request) (now env) in
  store_after (POST store env request) = check.2
  ∧ (∀ retryAfter, check.1 = Rejected retryAfter →
       response (POST store env request)
       = {| status := 429;
            body := RateLimitBody "Too many requests. Please try again later."
                      (requestId env) retryAfter |})
  ∧ (status (response (POST store env request)) = 400 → check.1 = Proceed)
  ∧ (∀ d, ThermalDetectionLog d ∈ events (POST store env request) →
       check.1 = Proceed
       ∧ ∃ fd file buffer metadata raw,
           ReachesDetector env request fd file buffer metadata raw).
Proof.
  intros check. split_and!.
  - apply POST_store_after.
  - intros retryAfter Hrej. subst check. unfold POST.
    destruct (rate_limit_check _ _ _) as [[r|] st']; simpl in *; by simplify_eq.
  - subst check. unfold POST.
    destruct (rate_limit_check _ _ _) as [[r|] st']; simpl; done.
  - intros d Hd.
    destruct (POST_detected _ _ _ _ Hd)
      as (fd & file & buffer & metadata & raw & a' & st' & Hreach & Hrl & _).
    subst check. rewrite Hrl. split; [done|]. eauto 10.
Qed.

Lemma rate_limiter_before_validator_witness :
  let o := POST ∅ (sample_env black_image (Throws "down") 1000)
             (sample_request None None None) in
  status (response o) = 400
  ∧ store_after o = {[ "10.0.0.7"%string := {| count := 1; resetTime := 3601000 |} ]}.
Proof.
  destruct (rate_limiter_before_validator ∅ (sample_env black_image (Throws "down") 1000)
              (sample_request None None None)) as (Hstore & _).
  split; [reflexivity|]. rewrite Hstore. reflexivity.
Defined.

(** * Further properties of the handler *)

(** ** The rate limiter, continued *)

Lemma rate_limit_check_other (store : gmap string RateEntry) (key k : string) (t : Z) :
  k ≠ key → (rate_limit_check store key t).2 !! k = store !! k.
Proof.
  intros Hne. unfold rate_limit_check.
  destruct (store !! key) as [e|]; repeat case_match; simpl;
    rewrite ?lookup_insert_ne by done; done.
Qed.

(** X1. A request touches the entry of its own client only. *)
Theorem other_clients_untouched (store : gmap string RateEntry) (env : Env)
    (request : Request) (k : string) :
  k ≠ clientIp_of request →
  store_after (POST store env request) !! k = store !! k.
Proof. intros Hne. rewrite POST_store_after. by apply rate_limit_check_other. Qed.

Lemma other_clients_untouched_witness :
  store_after (POST {[ "10.0.0.8"%string := {| count := 7; resetTime := 5000 |} ]}
                 (sample_env black_image (Throws "down") 1000)
                 (sample_request None None None)) !! "10.0.0.8"%string
  = Some {| count := 7; resetTime := 5000 |}.
Proof.
  rewrite (other_clients_untouched _ _ _ "10.0.0.8"); [reflexivity|].
  vm_compute. discriminate.
Defined.

Lemma rate_limit_check_bounds (store : gmap string RateEntry) (key : string) (t : Z) :
  (∀ k e, store !! k = Some e → 1 <= count e <= RATE_LIMIT) →
  ∀ k e, (rate_limit_check store key t).2 !! k = Some e → 1 <= count e <= RATE_LIMIT.
Proof.
  intros Hinv k e. unfold rate_limit_check.
  destruct (store !! key) as [userLimit|] eqn:Hl.
  - pose proof (Hinv _ _ Hl) as Hu.
    destruct ((resetTime userLimit >? t) && (count userLimit >=? RATE_LIMIT)) eqn:Hrej;
      simpl; [apply Hinv|].
    destruct (resetTime userLimit <=? t) eqn:Hexp; simpl; intros Hk;
      apply lookup_insert_Some in Hk as [[_ <-] | [_ Hk]]; simpl;
      try (unfold RATE_LIMIT; lia); try (by eapply Hinv).
    apply andb_false_iff in Hrej as [Hrej | Hrej].
    + rewrite Z.gtb_ltb in Hrej. lia.
    + rewrite Z.geb_leb in Hrej. lia.
  - simpl. intros Hk. apply lookup_insert_Some in Hk as [[_ <-] | [_ Hk]]; simpl;
      [unfold RATE_LIMIT; lia | by eapply Hinv].
Qed.

(** X2. Whatever requests are served from an empty store, every count held
    is at least 1 and at most [RATE_LIMIT]. *)
Theorem counts_within_cap (calls : list (Env * Request)) (k : string) (e : RateEntry) :
  serve ∅ calls !! k = Some e → 1 <= count e <= RATE_LIMIT.
Proof.
  assert (Hgen : ∀ calls (store : gmap string RateEntry),
             (∀ k e, store !! k = Some e → 1 <= count e <= RATE_LIMIT) →
             ∀ k e, serve store calls !! k = Some e → 1 <= count e <= RATE_LIMIT).
  { clear. induction calls as [|call calls IH]; intros store Hinv; [done|].
    change (serve store (call :: calls))
      with (serve (store_after (POST store call.1 call.2)) calls).
    apply IH. rewrite POST_store_after. by apply rate_limit_check_bounds. }
  apply Hgen. intros k' e' Hk. by rewrite lookup_empty in Hk.
Qed.

Lemma counts_within_cap_witness :
  let call := (sample_env black_image (Throws "down") 1000,
               sample_request (Some sample_file) None None) in
  serve ∅ (replicate 150 call) !! "10.0.0.7"%string
  = Some {| count := 100; resetTime := 3601000 |}
  ∧ 1 <= 100 <= RATE_LIMIT.
Proof.
  intros call.
  assert (Hlook : serve ∅ (replicate 150 call) !! "10.0.0.7"%string
                  = Some {| count := 100; resetTime := 3601000 |}) by (vm_compute; reflexivity).
  split; [exact Hlook|].
  exact (counts_within_cap (replicate 150 call) "10.0.0.7" _ Hlook).
Defined.

Lemma POST_rejected (store : gmap string RateEntry) (env : Env) (request : Request) r st' :
  rate_limit_check store (clientIp_of request) (now env) = (Rejected r, st') →
  status (response (POST store env request)) = 429.
Proof. intros Hrl. unfold POST. by rewrite Hrl. Qed.

(** Inside an active window the requests of its client that are let
    through, added to the count the window stood at, stay within the cap. *)
Lemma let_through_in_window (k : string) (calls : list (Env * Request)) :
  ∀ (store : gmap string RateEntry) (e : RateEntry),
    store !! k = Some e →
    Forall (λ call, clientIp_of call.2 = k ∧ now call.1 < resetTime e) calls →
    count e + Z.of_nat (length (let_through (serve_responses store calls)))
    <= Z.max (count e) RATE_LIMIT.
Proof.
  induction calls as [|call calls IH]; intros store e Hk Hall; [simpl; lia|].
  apply Forall_cons in Hall as [[Hip Hnow] Hall].
  cbn [serve_responses]. unfold let_through. rewrite filter_cons.
  rewrite POST_store_after, Hip.
  destruct (Z_lt_le_dec (count e) RATE_LIMIT) as [Hroom | Hfull].
  - pose proof (rate_limit_check_count _ _ _ _ Hk Hnow Hroom) as Hrl.
    rewrite decide_True
      by (apply POST_proceed_status; by rewrite Hip, Hrl).
    rewrite Hrl. simpl snd. simpl length.
    specialize (IH (<[k := {| count := count e + 1; resetTime := resetTime e |}]> store)
                  {| count := count e + 1; resetTime := resetTime e |}).
    rewrite lookup_insert_eq in IH. specialize (IH eq_refl Hall).
    unfold let_through in IH. simpl in IH. lia.
  - pose proof (rate_limit_check_full _ _ _ _ Hk Hnow Hfull) as Hrl.
    rewrite decide_False
      by (intros Hst; apply Hst; eapply POST_rejected; by rewrite Hip).
    rewrite Hrl. simpl snd.
    specialize (IH store e Hk Hall). unfold let_through in IH. lia.
Qed.

(** X3. From the request that opens a window on, at most [RATE_LIMIT]
    requests of that client made before the window ends are let through;
    the others are answered 429. *)
Theorem window_lets_through_at_most_cap (store : gmap string RateEntry) (k : string)
    (first : Env * Request) (rest : list (Env * Request)) :
  (store !! k = None ∨ ∃ e, store !! k = Some e ∧ resetTime e <= now first.1) →
  clientIp_of first.2 = k →
  Forall (λ call, clientIp_of call.2 = k ∧ now call.1 < now first.1 + RATE_WINDOW) rest →
  Z.of_nat (length (let_through (serve_responses store (first :: rest)))) <= RATE_LIMIT.
Proof.
  intros Hopen Hip Hall.
  assert (Hfirst : rate_limit_check store k (now first.1)
                   = (Proceed, <[k := {| count := 1;
                                         resetTime := now first.1 + RATE_WINDOW |}]> store)).
  { destruct Hopen as [Hnone | (e & He & Hle)].
    - by apply rate_limit_check_fresh.
    - by eapply rate_limit_check_expired. }
  cbn [serve_responses]. unfold let_through. rewrite filter_cons.
  rewrite POST_store_after, Hip, Hfirst. simpl snd.
  pose proof (let_through_in_window k rest
                (<[k := {| count := 1; resetTime := now first.1 + RATE_WINDOW |}]> store)
                {| count := 1; resetTime := now first.1 + RATE_WINDOW |}) as Hwin.
  rewrite lookup_insert_eq in Hwin. specialize (Hwin eq_refl Hall).
  unfold let_through in Hwin. simpl in Hwin.
  destruct (decide _); simpl length; unfold RATE_LIMIT in *; lia.
Qed.

Lemma window_lets_through_at_most_cap_witness :
  let call := (sample_env black_image (Throws "down") 1000,
               sample_request (Some sample_file) None None) in
  Z.of_nat (length (let_through (serve_responses ∅ (replicate 130 call)))) <= RATE_LIMIT.
Proof.
  intros call.
  apply (window_lets_through_at_most_cap ∅ "10.0.0.7" call (replicate 129 call)).
  - left. apply lookup_empty.
  - reflexivity.
  - apply Forall_replicate. split; [reflexivity|]. unfold RATE_WINDOW. simpl. lia.
Defined.

(** ** The validator *)

(** X4. A submission that got past the rate limiter with a file is answered
    with the file size message exactly when the file is larger than
    [MAX_FILE_SIZE]: a file of that very size is not turned away for its
    size. *)
Theorem file_size_ceiling (store : gmap string RateEntry) (env : Env) (request : Request)
    (fd : FormData) (file : File) :
  (rate_limit_check store (clientIp_of request) (now env)).1 = Proceed →
  formData request = Ok fd →
  form_image fd = Some file →
  response (POST store env request)
  = {| status := 400;
       body := ErrorBody "File size exceeds maximum allowed size of 50MB" (requestId env) |}
  ↔ MAX_FILE_SIZE < file_size file.
Proof.
  intros Hrl Hform Hfile. unfold POST.
  destruct (rate_limit_check _ _ _) as [[r|] st']; simpl in Hrl; [done|].
  unfold analyze. rewrite Hform, Hfile.
  destruct (file_size file >? MAX_FILE_SIZE) eqn:Hsize.
  - rewrite Z.gtb_ltb in Hsize. split; [lia|]. intros _. reflexivity.
  - rewrite Z.gtb_ltb in Hsize. split; [|lia].
    unfold detect, analyze_thermal, assemble, json, json_status.
    repeat case_match; simplify_eq; simpl; intros Heq; try discriminate Heq;
      injection Heq as Hmsg; vm_compute in Hmsg; discriminate Hmsg.
Qed.

Lemma file_size_ceiling_witness :
  let big := {| file_name := "panel.png"; file_size := MAX_FILE_SIZE + 1;
                file_type := "image/png"; file_arrayBuffer := Ok sample_bytes |} in
  response (POST ∅ (sample_env black_image (Throws "down") 1000)
              (sample_request (Some big) None None))
  = {| status := 400;
       body := ErrorBody "File size exceeds maximum allowed size of 50MB" "req-1" |}.
Proof.
  intros big.
  apply (file_size_ceiling ∅ (sample_env black_image (Throws "down") 1000)
           (sample_request (Some big) None None)
           {| form_image := Some big; form_imageType := None; form_demoMode := None |} big);
    [reflexivity | reflexivity | reflexivity | vm_compute; reflexivity].
Defined.

Lemma has_dot_app (a b : string) : has_dot (a +:+ b) = has_dot a || has_dot b.
Proof. induction a as [|c a IH]; simpl; [done|]. by rewrite IH, orb_assoc. Qed.

Lemma last_segment_no_dot (s : string) : has_dot (last_segment s) = false.
Proof.
  induction s as [|c s IH]; simpl; [done|].
  destruct (has_dot s) eqn:Hs; [done|].
  destruct (Ascii.eqb c ".") eqn:Hc; [done|]. simpl. by rewrite Hc, Hs.
Qed.

(** X5. The extension the validator looks at is what follows the last dot
    of the file name, whatever dots come before, and its letter case does not
    count: a name made of any stem, a dot and a dot-free ending is judged by
    that ending in lower case. *)
Theorem extension_follows_last_dot (stem ext : string) :
  has_dot ext = false →
  toLowerCase (last_segment (stem +:+ "." +:+ ext)) = toLowerCase ext
  ∧ has_dot (last_segment (stem +:+ "." +:+ ext)) = false.
Proof.
  intros Hext. split; [|apply last_segment_no_dot]. f_equal.
  induction stem as [|c stem IH]; simpl.
  - change (EmptyString +:+ ext) with ext. by rewrite Hext.
  - rewrite has_dot_app. change (has_dot ("." +:+ ext)) with true.
    by rewrite orb_true_r.
Qed.

Lemma extension_follows_last_dot_witness :
  includes ALLOWED_FORMATS (toLowerCase (last_segment ("site.7/scan.v2" +:+ "." +:+ "JPG")))
  = true.
Proof.
  destruct (extension_follows_last_dot "site.7/scan.v2" "JPG" eq_refl) as [-> _].
  reflexivity.
Defined.

(** The four messages of the validator. *)
Lemma analyze_messages (env : Env) (request : Request) (a : AuditLog) r a' evs :
  analyze env request a = Returned r a' evs → status r = 400 →
  ∃ msg, r = json_status (ErrorBody msg (requestId env)) 400
    ∧ msg ∈ ["Please provide a valid image file";
             "File size exceeds maximum allowed size of 50MB";
             "Invalid file format. Allowed formats: jpeg, jpg, png, tiff, bmp";
             "Invalid or corrupted image file. Please upload a valid image."]%string
    ∧ vision_calls evs = [] ∧ audit_records evs = [].
Proof.
  unfold analyze, detect, analyze_thermal, assemble, json.
  intros Hr Hst. repeat case_match; simplify_eq; simpl in *; try discriminate Hst;
    eexists; (split; [reflexivity|]); (split; [|done]);
    vm_compute; repeat first [apply list_elem_of_here | apply list_elem_of_further].
Qed.

(** X6. Every answer with status 400 carries the request identifier and one
    of the validator's four fixed messages; for such a request the inference
    service is not called and no audit record is written. *)
Theorem rejection_messages (store : gmap string RateEntry) (env : Env) (request : Request) :
  status (response (POST store env request)) = 400 →
  ∃ msg, body (response (POST store env request)) = ErrorBody msg (requestId env)
    ∧ msg ∈ ["Please provide a valid image file";
             "File size exceeds maximum allowed size of 50MB";
             "Invalid file format. Allowed formats: jpeg, jpg, png, tiff, bmp";
             "Invalid or corrupted image file. Please upload a valid image."]%string
    ∧ vision_calls (events (POST store env request)) = []
    ∧ audit_records (events (POST store env request)) = [].
Proof.
  unfold POST.
  destruct (rate_limit_check _ _ _) as [[r|] st']; simpl; [done|].
  destruct (analyze env request _) as [r a' evs | m a' evs] eqn:Ha; simpl; [|done].
  intros Hst. destruct (analyze_messages _ _ _ _ _ _ Ha Hst) as (msg & -> & Hmsg & Hv & Hau).
  exists msg. by split_and!.
Qed.

Lemma rejection_messages_witness :
  ∃ msg,
    body (response (POST ∅ (sample_env black_image (Throws "down") 1000)
                      (sample_request None None None)))
    = ErrorBody msg "req-1"
    ∧ audit_records (events (POST ∅ (sample_env black_image (Throws "down") 1000)
                               (sample_request None None None))) = [].
Proof.
  destruct (rejection_messages ∅ (sample_env black_image (Throws "down") 1000)
              (sample_request None None None)) as (msg & Hbody & _ & _ & Haudit).
  - reflexivity.
  - exists msg. split; [exact Hbody | exact Haudit].
Defined.

Lemma validate_image_ok (env : Env) (buffer : list Byte.byte) (metadata : Metadata) :
  validate_image env buffer = Ok metadata →
  sharp_metadata env buffer = Ok metadata
  ∧ ∃ w h, meta_width metadata = Some w ∧ meta_height metadata = Some h
           ∧ w ≠ 0 ∧ h ≠ 0 ∧ w <= MAX_IMAGE_DIMENSION ∧ h <= MAX_IMAGE_DIMENSION.
Proof.
  unfold validate_image.
  destruct (sharp_metadata env buffer) as [m|e]; [|done].
  destruct (bool_decide (default 0 (meta_width m) = 0)
            || bool_decide (default 0 (meta_height m) = 0)) eqn:Hzero; [done|].
  destruct ((default 0 (meta_width m) >? MAX_IMAGE_DIMENSION)
            || (default 0 (meta_height m) >? MAX_IMAGE_DIMENSION)) eqn:Hbig; [done|].
  intros [= <-]. split; [done|].
  apply orb_false_iff in Hzero as [Hw Hh]. apply orb_false_iff in Hbig as [Hwb Hhb].
  apply bool_decide_eq_false in Hw, Hh. rewrite Z.gtb_ltb in Hwb, Hhb.
  destruct (meta_width m) as [w|], (meta_height m) as [h|]; simpl in *; try done.
  exists w, h. split_and!; try done; lia.
Qed.

(** The other way round: metadata with a width and a height that are not
    zero and at most [MAX_IMAGE_DIMENSION] pass the validation. *)
Lemma validate_image_accepts (env : Env) (buffer : list Byte.byte) (metadata : Metadata)
    (w h : Z) :
  sharp_metadata env buffer = Ok metadata →
  meta_width metadata = Some w → meta_height metadata = Some h →
  w ≠ 0 → h ≠ 0 → w <= MAX_IMAGE_DIMENSION → h <= MAX_IMAGE_DIMENSION →
  validate_image env buffer = Ok metadata.
Proof.
  intros Hsharp Hw Hh Hw0 Hh0 Hwb Hhb. unfold validate_image.
  rewrite Hsharp, Hw, Hh. simpl.
  rewrite !bool_decide_eq_false_2 by done. simpl.
  replace (w >? MAX_IMAGE_DIMENSION) with false by (symmetry; rewrite Z.gtb_ltb; lia).
  replace (h >? MAX_IMAGE_DIMENSION) with false by (symmetry; rewrite Z.gtb_ltb; lia).
  done.
Qed.

(** The detector writes its two debug lines whatever it decides. *)
Lemma detect_logs (env : Env) a fd buffer w h raw :
  ∃ r a' evs,
    detect env a fd buffer w h raw = Returned r a' (detection_events fd raw ++ evs).
Proof.
  unfold detect, analyze_thermal, assemble.
  destruct (negb _); [by eexists _, _, []; rewrite app_nil_r|].
  destruct (vision env buffer); rewrite <- ?app_assoc; by eexists _, _, _.
Qed.

(** X7. The detector runs only on an image whose metadata give a width and a
    height that are both present, not zero and at most
    [MAX_IMAGE_DIMENSION]; and it does run on every such image, one of
    exactly that width or height included, when the request passed the rate
    limiter and the checks of the file and the image decodes. *)
Theorem detector_dimensions (store : gmap string RateEntry) (env : Env)
    (request : Request) :
  (∀ d, ThermalDetectionLog d ∈ events (POST store env request) →
     ∃ fd file buffer metadata w h,
       formData request = Ok fd ∧ form_image fd = Some file
       ∧ file_arrayBuffer file = Ok buffer
       ∧ sharp_metadata env buffer = Ok metadata
       ∧ meta_width metadata = Some w ∧ meta_height metadata = Some h
       ∧ w ≠ 0 ∧ h ≠ 0 ∧ w <= MAX_IMAGE_DIMENSION ∧ h <= MAX_IMAGE_DIMENSION)
  ∧ (∀ fd file buffer metadata raw w h,
       (rate_limit_check store (clientIp_of request) (now env)).1 = Proceed →
       formData request = Ok fd → form_image fd = Some file →
       file_size file <= MAX_FILE_SIZE →
       includes ALLOWED_FORMATS (toLowerCase (last_segment (file_name file))) = true →
       file_arrayBuffer file = Ok buffer →
       sharp_metadata env buffer = Ok metadata →
       meta_width metadata = Some w → meta_height metadata = Some h →
       w ≠ 0 → h ≠ 0 → w <= MAX_IMAGE_DIMENSION → h <= MAX_IMAGE_DIMENSION →
       sharp_raw env buffer = Ok raw →
       ThermalDetectionLog (detection_log fd raw) ∈ events (POST store env request)).
Proof.
  split.
  - intros d Hd.
    destruct (POST_detected _ _ _ _ Hd)
      as (fd & file & buffer & metadata & raw & a' & st' & Hreach & _).
    destruct Hreach as [Hform Hfile _ _ Hbuffer Hmeta _].
    destruct (validate_image_ok _ _ _ Hmeta)
      as (Hsharp & w & h & Hw & Hh & Hw0 & Hh0 & Hwb & Hhb).
    exists fd, file, buffer, metadata, w, h. by split_and!.
  - intros fd file buffer metadata raw w h Hrl Hform Hfile Hsize Hfmt Hbuffer
      Hsharp Hw Hh Hw0 Hh0 Hwb Hhb Hraw.
    unfold POST. destruct (rate_limit_check _ _ _) as [[r|] st']; [done|].
    unfold analyze. rewrite Hform, Hfile.
    replace (file_size file >? MAX_FILE_SIZE) with false
      by (symmetry; rewrite Z.gtb_ltb; lia).
    rewrite Hfmt.
    replace (String.eqb (toLowerCase (last_segment (file_name file))) EmptyString)
      with false.
    2:{ symmetry. apply String.eqb_neq. intros Hext. by rewrite Hext in Hfmt. }
    simpl. rewrite Hbuffer.
    rewrite (validate_image_accepts _ _ _ w h Hsharp Hw Hh Hw0 Hh0 Hwb Hhb), Hraw.
    destruct (detect_logs env
                (with_detail
                   (with_detail (initial_auditLog env (clientIp_of request)) "fileInfo"
                      (DFileInfo (file_name file) (file_size file) (file_type file)
                         (imageType_of fd) (demoMode_of fd)))
                   "imageMetadata"
                   (DImageMetadata (default 0 (meta_width metadata))
                      (default 0 (meta_height metadata)) (meta_format metadata)
                      (meta_channels metadata)))
                fd buffer (default 0 (meta_width metadata))
                (default 0 (meta_height metadata)) raw) as (r & a' & evs & ->).
    simpl. apply list_elem_of_further, list_elem_of_here.
Qed.

(** An image of 8192 by 8192 pixels, the largest let in, gets to the
    detector. *)
Lemma detector_dimensions_witness :
  ∃ d, ThermalDetectionLog d
       ∈ events (POST ∅ (largest_env black_image (Throws "down") 1000)
                   (sample_request (Some sample_file) None None)).
Proof.
  destruct (detector_dimensions ∅ (largest_env black_image (Throws "down") 1000)
              (sample_request (Some sample_file) None None)) as [_ Hruns].
  eexists.
  apply (Hruns {| form_image := Some sample_file; form_imageType := None;
                  form_demoMode := None |} sample_file sample_bytes
           {| meta_width := Some 8192; meta_height := Some 8192;
              meta_format := Some "png"%string; meta_channels := Some 3 |}
           black_image 8192 8192);
    first [reflexivity | by vm_compute | (unfold MAX_IMAGE_DIMENSION; lia) | done].
Defined.

(** ** The outermost handler *)

Lemma set_property_elem (key : string) (v : DetailValue) (obj : list (string * DetailValue)) :
  (key, v) ∈ set_property key v obj.
Proof.
  induction obj as [|[k w] obj IH]; simpl; [apply list_elem_of_here|].
  destruct (String.eqb k key) eqn:Hk.
  - apply String.eqb_eq in Hk as ->. apply list_elem_of_here.
  - by apply list_elem_of_further.
Qed.

Lemma analyze_thrown (env : Env) (request : Request) (a : AuditLog) m a' evs :
  analyze env request a = Thrown m a' evs →
  audit_status a' = audit_status a ∧ evs = [].
Proof.
  unfold analyze, detect, analyze_thermal, assemble.
  intros H. repeat case_match; simplify_eq; done.
Qed.

(** X8. An answer with status 500 never shows the internal error: its
    message is one of two fixed texts, the one about a time-out exactly when
    the internal message contains [timeout].  The internal message goes to
    the audit record, which is written once, as the last event, with status
    failure and the processing time; the inference service was not called. *)
Theorem failure_is_sanitized (store : gmap string RateEntry) (env : Env)
    (request : Request) :
  status (response (POST store env request)) = 500 →
  ∃ errorMessage a,
    body (response (POST store env request))
    = FailureBody
        (if str_includes errorMessage "timeout"
         then "Request timed out. Please try with a smaller image."
         else "An error occurred during analysis. Please try again.")%string
        (requestId env)
        "If this issue persists, please contact support with the request ID."
    ∧ events (POST store env request)
      = [ConsoleError ("[" +:+ requestId env +:+ "] Hotspot analysis failed: "
                       +:+ errorMessage);
         AuditRecord a]
    ∧ a = auditLog_after (POST store env request)
    ∧ audit_status a = failure
    ∧ audit_processingTime a = Some (auditTime env - startTime env)
    ∧ ("error"%string, DText errorMessage) ∈ audit_details a.
Proof.
  unfold POST.
  destruct (rate_limit_check _ _ _) as [[r|] st']; simpl; [done|].
  destruct (analyze_cases env request (initial_auditLog env (clientIp_of request)))
    as [(msg & a' & evs & -> & Hevs) | [(m & a' & Ha)
        | (fd & file & buffer & metadata & raw & a' & Hreach & ->)]]; simpl; [done| |].
  - rewrite Ha. simpl. intros _. eexists m, _. split_and!; try reflexivity.
    + destruct (analyze_thrown _ _ _ _ _ _ Ha) as [Hst _]. exact Hst.
    + apply set_property_elem.
  - unfold detect, analyze_thermal, assemble.
    repeat case_match; simplify_eq; simpl; done.
Qed.

Lemma failure_is_sanitized_witness :
  let request := {| x_forwarded_for := None; formData := Throws "Unexpected end of form" |} in
  ∃ errorMessage a,
    body (response (POST ∅ (sample_env black_image (Throws "down") 1000) request))
    = FailureBody
        (if str_includes errorMessage "timeout"
         then "Request timed out. Please try with a smaller image."
         else "An error occurred during analysis. Please try again.")%string
        "req-1" "If this issue persists, please contact support with the request ID."
    ∧ audit_status a = failure.
Proof.
  intros request.
  destruct (failure_is_sanitized ∅ (sample_env black_image (Throws "down") 1000) request)
    as (errorMessage & a & Hbody & _ & _ & Hstatus & _).
  - reflexivity.
  - exists errorMessage, a. split; [exact Hbody | exact Hstatus].
Defined.

(** X9. When the bytes of a file that passed the size and format checks
    cannot be read, the request is answered 500, with the time-out message
    when the reading ran out of time; nothing is decoded. *)
Theorem unreadable_file_answered_500 (store : gmap string RateEntry) (env : Env)
    (request : Request) (fd : FormData) (file : File) (e : string) :
  (rate_limit_check store (clientIp_of request) (now env)).1 = Proceed →
  formData request = Ok fd →
  form_image fd = Some file →
  file_size file <= MAX_FILE_SIZE →
  includes ALLOWED_FORMATS (toLowerCase (last_segment (file_name file))) = true →
  file_arrayBuffer file = Throws e →
  response (POST store env request)
  = {| status := 500;
       body := FailureBody
                 (if str_includes e "timeout"
                  then "Request timed out. Please try with a smaller image."
                  else "An error occurred during analysis. Please try again.")%string
                 (requestId env)
                 "If this issue persists, please contact support with the request ID." |}
  ∧ ∀ d, ThermalDetectionLog d ∉ events (POST store env request).
Proof.
  intros Hrl Hform Hfile Hsize Hfmt Hread. unfold POST.
  destruct (rate_limit_check _ _ _) as [[r|] st']; simpl in Hrl; [done|].
  unfold analyze. rewrite Hform, Hfile.
  replace (file_size file >? MAX_FILE_SIZE) with false
    by (symmetry; rewrite Z.gtb_ltb; lia).
  assert (Hext : String.eqb (toLowerCase (last_segment (file_name file))) EmptyString
                 = false).
  { destruct (String.eqb _ EmptyString) eqn:Heq; [|done].
    apply String.eqb_eq in Heq. rewrite Heq in Hfmt. done. }
  rewrite Hext, Hfmt, Hread. simpl. split; [done|].
  intros d Hd. event_cases Hd.
Qed.

Lemma unreadable_file_answered_500_witness :
  let slow := {| file_name := "panel.png"; file_size := 1024; file_type := "image/png";
                 file_arrayBuffer := Throws "File processing timeout" |} in
  status (response (POST ∅ (sample_env black_image (Throws "down") 1000)
                      (sample_request (Some slow) None None))) = 500
  ∧ body (response (POST ∅ (sample_env black_image (Throws "down") 1000)
                      (sample_request (Some slow) None None)))
    = FailureBody "Request timed out. Please try with a smaller image." "req-1"
        "If this issue persists, please contact support with the request ID.".
Proof.
  intros slow.
  destruct (unreadable_file_answered_500 ∅ (sample_env black_image (Throws "down") 1000)
              (sample_request (Some slow) None None)
              {| form_image := Some slow; form_imageType := None; form_demoMode := None |}
              slow "File processing timeout") as [-> _];
    [reflexivity | reflexivity | reflexivity | vm_compute; discriminate
     | reflexivity | reflexivity |].
  split; reflexivity.
Defined.

(** ** The audit trail, continued *)

Lemma console_errors_only (evs : list Event) :
  (∀ e, e ∈ evs → ∃ t, e = ConsoleError t) →
  audit_records evs = [] ∧ vision_calls evs = [].
Proof.
  induction evs as [|e evs IH]; intros Hall; [done|].
  destruct (Hall e (list_elem_of_here _ _)) as [t ->].
  destruct IH as [Ha Hv]; [intros e' He'; apply Hall; by apply list_elem_of_further|].
  change (audit_records (ConsoleError t :: evs)) with (audit_records evs).
  change (vision_calls (ConsoleError t :: evs)) with (vision_calls evs).
  by rewrite Ha, Hv.
Qed.

(** X10. No request writes more than one audit record, and the inference
    service is called at most once.  A record that is written is the last
    event of the request, is the record as the handler left it, carries the
    processing time, and has status success exactly when the answer has
    status 200. *)
Theorem audit_record_at_most_once (store : gmap string RateEntry) (env : Env)
    (request : Request) :
  let o := POST store env request in
  (length (audit_records (events o)) <= 1)%nat
  ∧ (length (vision_calls (events o)) <= 1)%nat
  ∧ ∀ a, a ∈ audit_records (events o) →
      last (events o) = Some (AuditRecord a)
      ∧ a = auditLog_after o
      ∧ audit_processingTime a = Some (auditTime env - startTime env)
      ∧ (audit_status a = success ↔ status (response o) = 200).
Proof.
  unfold POST.
  destruct (rate_limit_check _ _ _) as [[r|] st']; simpl.
  { split_and!; [lia..|]. intros rec Hrec. by apply elem_of_nil in Hrec. }
  destruct (analyze_cases env request (initial_auditLog env (clientIp_of request)))
    as [(msg & a' & evs & -> & Hevs) | [(m & a' & Ha)
        | (fd & file & buffer & metadata & raw & a' & Hreach & ->)]]; simpl.
  - destruct (console_errors_only evs Hevs) as [-> ->]. simpl.
    split_and!; [lia..|]. intros rec Hrec. by apply elem_of_nil in Hrec.
  - rewrite Ha. simpl. split_and!; [lia..|].
    intros rec Hrec. apply list_elem_of_singleton in Hrec as ->.
    split_and!; try reflexivity.
    destruct (analyze_thrown _ _ _ _ _ _ Ha) as [Hst _].
    change (audit_status a' = success ↔ 500 = 200). rewrite Hst. simpl. split; done.
  - unfold detect, analyze_thermal, assemble, detection_events.
    repeat case_match; simplify_eq; simpl.
    + split_and!; [lia..|]. intros rec Hrec. by apply elem_of_nil in Hrec.
    + split_and!; [lia..|].
      intros rec Hrec. apply list_elem_of_singleton in Hrec as ->.
      split_and!; try reflexivity. split; done.
    + split_and!; [lia..|]. intros rec Hrec. by apply elem_of_nil in Hrec.
Qed.

(** ** The assembled answer, continued *)

(** The area of a hotspot of the answer is never zero, so that the circle
    area is never taken in its place. *)
Lemma hotspot_area_given (h : RawHotspot) :
  hotspot_area (normalize_hotspot h) = b64_of_Q (given_area h).
Proof.
  unfold hotspot_area, given_area, normalize_hotspot, num_or. simpl.
  destruct (raw_area h) as [q|]; [|done].
  destruct (truthy q) eqn:Hq; [by rewrite Hq|done].
Qed.

Lemma totalArea_from (hs : list RawHotspot) :
  ∀ a : spec_float,
    foldl (λ sum h, b64_add sum (hotspot_area h)) a (normalize_hotspot <$> hs)
    = foldl (λ sum h, b64_add sum (b64_of_Q (given_area h))) a hs.
Proof.
  induction hs as [|h hs IH]; intros a; simpl; [done|].
  by rewrite IH, hotspot_area_given.
Qed.

Section AssembledAnswer.

(** A request for which the inference service was called, on [buffer], and
    whose inference block ended with [visionResult]. *)
Variables (store : gmap string RateEntry) (env : Env) (request : Request).
Variables (buffer : list Byte.byte) (visionResult : VisionResult).
Hypothesis Hcall : VisionCall buffer ∈ events (POST store env request).
Hypothesis Hv : vision env buffer = Ok visionResult.

(** X11. On successful inference exactly one audit record is written, with
    status success and the processing time; its results hold the severity,
    the number of hotspots the service gave (not the number returned) and the
    base confidence 0.85, whatever confidence the answer carries. *)
Theorem success_audit_record :
  ∃ a, audit_records (events (POST store env request)) = [a]
    ∧ audit_status a = success
    ∧ audit_processingTime a = Some (auditTime env - startTime env)
    ∧ ("results"%string,
       DResults (str_or (vr_severity visionResult) "medium")
         (length (given_hotspots visionResult)) 0.85)
      ∈ audit_details a.
Proof.
  destruct (POST_vision_called _ _ _ _ Hcall)
    as (fd & file & metadata & raw & a' & st' & _ & _ & Hcl & Hout).
  rewrite (detect_vision_ok _ _ _ _ _ _ _ _ Hcl Hv) in Hout.
  unfold assemble in Hout. simpl in Hout. rewrite Hout. simpl.
  eexists. split_and!; try reflexivity.
  unfold extracted_hotspots. rewrite length_fmap. apply set_property_elem.
Qed.

(** X12. The metadata count all the hotspots the service gave, while the
    list returned holds at most 50 of them: [totalHotspots] can exceed the
    length of [hotspots]. *)
Theorem totalHotspots_counts_all :
  ∃ metadata, answer_metadata (response (POST store env request)) = Some metadata
    ∧ fm_totalHotspots metadata = length (given_hotspots visionResult)
    ∧ length (answer_hotspots (response (POST store env request)))
      = (length (given_hotspots visionResult) `min` 50)%nat.
Proof.
  destruct (POST_assembled _ _ _ _ _ Hcall Hv) as (w & h & ->).
  eexists. split; [reflexivity|]. split.
  - change (length (extracted_hotspots visionResult)
            = length (given_hotspots visionResult)).
    unfold extracted_hotspots. by rewrite length_fmap.
  - change (length (slice50 (extracted_hotspots visionResult))
            = (length (given_hotspots visionResult) `min` 50)%nat).
    unfold extracted_hotspots, slice50, given_hotspots.
    rewrite length_take, length_fmap. lia.
Qed.

(** X13. The affected area is the rounded hundredth of the binary64 sum,
    taken from left to right over all the hotspots the service gave, of the
    area it gave or 1000 when it gave none (or zero); neither the radius nor
    the circle area enters it.  It is [null] when that sum is not finite, and
    0 when the service gave no hotspot. *)
Theorem affectedArea_from_given_areas :
  ∃ metadata, answer_metadata (response (POST store env request)) = Some metadata
    ∧ fm_affectedArea metadata
      = b64_round (b64_div (given_area_sum (given_hotspots visionResult)) (b64_of_Z 100))
    ∧ (b64_value (given_area_sum (given_hotspots visionResult)) = None →
       fm_affectedArea metadata = None)
    ∧ (given_hotspots visionResult = [] → fm_affectedArea metadata = Some 0).
Proof.
  destruct (POST_assembled _ _ _ _ _ Hcall Hv) as (w & h & ->).
  eexists. split; [reflexivity|]. simpl.
  assert (Hsum : totalArea (extracted_hotspots visionResult)
                 = given_area_sum (given_hotspots visionResult)).
  { unfold totalArea, extracted_hotspots, given_hotspots, given_area_sum.
    by rewrite totalArea_from. }
  rewrite Hsum. split_and!; [done| |].
  - destruct (given_area_sum _) as [sg|sg| |sg m e]; try done; intros _; by destruct sg.
  - intros Hnone. unfold given_area_sum. rewrite Hnone. reflexivity.
Qed.

(** X14. The [confidence] inside the metadata is the service's value as
    given (0.85 when none or zero), not the normalised one: for a value above
    1 the metadata keep it while the top-level confidence is its hundredth. *)
Theorem metadata_confidence_not_normalised :
  ∃ metadata, answer_metadata (response (POST store env request)) = Some metadata
    ∧ fm_confidence metadata = Some (num_or (vr_confidence visionResult) 0.85)
    ∧ ∀ c, vr_confidence visionResult = Some c → (1 < c)%Q →
        fm_confidence metadata = Some c
        ∧ answer_confidence (response (POST store env request)) = Some (c / 100)%Q.
Proof.
  destruct (POST_assembled _ _ _ _ _ Hcall Hv) as (w & h & ->).
  eexists. split; [reflexivity|]. simpl. split; [reflexivity|].
  intros c Hc Hgt. unfold aiConfidence, answer_confidence, merged_confidence. simpl.
  unfold aiConfidence. rewrite Hc. simpl.
  assert (Ht : truthy c = true) by (apply truthy_true; lra).
  rewrite Ht, Ht. by rewrite (proj2 (Qgtb_true c 1) Hgt).
Qed.

(** X15. The assembled answer has no empty field where the handler fills in
    a default: the severity and every description are not empty, every area
    is not zero, and the maximum temperature is either missing or not
    zero. *)
Theorem answer_defaults_filled :
  ∃ rid severity hotspots confidence metadata,
    body (response (POST store env request))
    = FullBody rid severity hotspots confidence metadata
    ∧ severity ≠ EmptyString
    ∧ (∀ h, h ∈ hotspots → h_description h ≠ EmptyString ∧ ¬ (h_area h == 0)%Q)
    ∧ (∀ t, fm_maxTemperature metadata = Some t → ¬ (t == 0)%Q).
Proof.
  destruct (POST_assembled _ _ _ _ _ Hcall Hv) as (w & ht & ->).
  eexists _, _, _, _, _. split; [reflexivity|]. split_and!.
  - unfold str_or. destruct (vr_severity visionResult) as [s|]; [|done].
    destruct (String.eqb s EmptyString) eqn:Hs; [done|].
    by apply String.eqb_neq in Hs.
  - intros h Hh. unfold slice50, extracted_hotspots in Hh.
    apply elem_of_take in Hh as (i & Hi & _).
    apply list_lookup_fmap_Some in Hi as (raw & -> & _). simpl. split.
    + unfold str_or. destruct (raw_description raw) as [s|]; [|done].
      destruct (String.eqb s EmptyString) eqn:Hs; [done|].
      by apply String.eqb_neq in Hs.
    + unfold num_or. destruct (raw_area raw) as [q|]; [|done].
      destruct (truthy q) eqn:Hq; [by apply truthy_true|done].
  - simpl. unfold extracted_maxTemp. intros t.
    destruct (vr_maxTemperature visionResult) as [q|]; [|done].
    destruct (truthy q) eqn:Hq; [|done]. intros [= <-]. by apply truthy_true.
Qed.

End AssembledAnswer.

(** The submission used below: sixty hotspots without area and a confidence
    of 85. *)
Lemma success_audit_record_witness :
  ∃ a,
    audit_records
      (events (POST ∅ (sample_env black_image
                         (Ok (sample_answer (replicate 60 (sample_hotspot None None))
                                (Some 85%Q))) 1000)
                 (sample_request (Some sample_file) None None))) = [a]
    ∧ ("results"%string, DResults "high" 60 0.85) ∈ audit_details a.
Proof.
  destruct (success_audit_record ∅
              (sample_env black_image
                 (Ok (sample_answer (replicate 60 (sample_hotspot None None)) (Some 85%Q)))
                 1000)
              (sample_request (Some sample_file) None None) sample_bytes
              (sample_answer (replicate 60 (sample_hotspot None None)) (Some 85%Q)))
    as (a & Hone & _ & _ & Hresults).
  - vm_compute. do 2 apply list_elem_of_further. apply list_elem_of_here.
  - reflexivity.
  - exists a. split; [exact Hone | exact Hresults].
Defined.

Lemma totalHotspots_counts_all_witness :
  ∃ metadata,
    answer_metadata
      (response (POST ∅ (sample_env black_image
                           (Ok (sample_answer (replicate 60 (sample_hotspot None None))
                                  (Some 85%Q))) 1000)
                   (sample_request (Some sample_file) None None))) = Some metadata
    ∧ fm_totalHotspots metadata = 60%nat.
Proof.
  destruct (totalHotspots_counts_all ∅
              (sample_env black_image
                 (Ok (sample_answer (replicate 60 (sample_hotspot None None)) (Some 85%Q)))
                 1000)
              (sample_request (Some sample_file) None None) sample_bytes
              (sample_answer (replicate 60 (sample_hotspot None None)) (Some 85%Q)))
    as (metadata & Hmeta & Htotal & _).
  - vm_compute. do 2 apply list_elem_of_further. apply list_elem_of_here.
  - reflexivity.
  - exists metadata. split; [exact Hmeta | exact Htotal].
Defined.

(** Two hotspots of areas 59.12 and 90.88: their binary64 sum is 150, its
    hundredth 1.5, and the affected area 2. *)
Lemma affectedArea_from_given_areas_witness :
  ∃ metadata,
    answer_metadata
      (response (POST ∅ (sample_env black_image
                           (Ok (sample_answer [area_hotspot (5912 # 100);
                                               area_hotspot (9088 # 100)]
                                  (Some 85%Q))) 1000)
                   (sample_request (Some sample_file) None None))) = Some metadata
    ∧ fm_affectedArea metadata = Some 2.
Proof.
  destruct (affectedArea_from_given_areas ∅
              (sample_env black_image
                 (Ok (sample_answer [area_hotspot (5912 # 100); area_hotspot (9088 # 100)]
                        (Some 85%Q)))
                 1000)
              (sample_request (Some sample_file) None None) sample_bytes
              (sample_answer [area_hotspot (5912 # 100); area_hotspot (9088 # 100)]
                 (Some 85%Q)))
    as (metadata & Hmeta & Harea & _).
  - vm_compute. do 2 apply list_elem_of_further. apply list_elem_of_here.
  - reflexivity.
  - exists metadata. split; [exact Hmeta|]. rewrite Harea. reflexivity.
Defined.

Lemma metadata_confidence_not_normalised_witness :
  ∃ metadata,
    answer_metadata
      (response (POST ∅ (sample_env black_image (Ok (sample_answer [] (Some 85%Q))) 1000)
                   (sample_request (Some sample_file) None None))) = Some metadata
    ∧ fm_confidence metadata = Some 85%Q.
Proof.
  destruct (metadata_confidence_not_normalised ∅
              (sample_env black_image (Ok (sample_answer [] (Some 85%Q))) 1000)
              (sample_request (Some sample_file) None None) sample_bytes
              (sample_answer [] (Some 85%Q)))
    as (metadata & Hmeta & _ & Hbig).
  - vm_compute. do 2 apply list_elem_of_further. apply list_elem_of_here.
  - reflexivity.
  - exists metadata. split; [exact Hmeta|].
    apply (Hbig 85%Q eq_refl). reflexivity.
Defined.

Lemma answer_defaults_filled_witness :
  ∃ rid severity hotspots confidence metadata,
    body (response (POST ∅ (sample_env black_image
                              (Ok (sample_answer [sample_hotspot None None] None)) 1000)
                      (sample_request (Some sample_file) None None)))
    = FullBody rid severity hotspots confidence metadata
    ∧ severity ≠ EmptyString.
Proof.
  destruct (answer_defaults_filled ∅
              (sample_env black_image (Ok (sample_answer [sample_hotspot None None] None))
                 1000)
              (sample_request (Some sample_file) None None) sample_bytes
              (sample_answer [sample_hotspot None None] None))
    as (rid & severity & hotspots & confidence & metadata & Hbody & Hsev & _).
  - vm_compute. do 2 apply list_elem_of_further. apply list_elem_of_here.
  - reflexivity.
  - exists rid, severity, hotspots, confidence, metadata. split; [exact Hbody | exact Hsev].
Defined.

(** ** The sampling *)

Lemma length_stride_positions (n : nat) :
  length (stride_positions n) = ((n + 19) `div` 20)%nat.
Proof. unfold stride_positions. by rewrite length_fmap, length_seq. Qed.

Lemma sample_row_totalPixels (img : RawImage) (y : nat) (l : list nat) :
  ∀ s, totalPixels (foldl (sample_pixel img y) s l) = (totalPixels s + length l)%nat.
Proof. induction l as [|x l IH]; intros s; simpl; [lia|]. rewrite IH. simpl. lia. Qed.

(** X16. The number of samples depends on the dimensions only: one for
    every twentieth column of every twentieth row, starting with the first,
    whatever the buffer holds. *)
Theorem totalPixels_grid (img : RawImage) :
  totalPixels (sample_image img)
  = (((info_height img + 19) `div` 20) * ((info_width img + 19) `div` 20))%nat.
Proof.
  unfold sample_image. rewrite <- !length_stride_positions.
  generalize (stride_positions (info_height img)) as rows.
  assert (Hgen : ∀ rows s,
             totalPixels (foldl (sample_row img) s rows)
             = (totalPixels s
                + length rows * length (stride_positions (info_width img)))%nat).
  { induction rows as [|y rows IH]; intros s; simpl; [lia|].
    rewrite IH. unfold sample_row. rewrite sample_row_totalPixels. lia. }
  intros rows. rewrite Hgen. simpl. lia.
Qed.

Lemma sample_pixel_size (img : RawImage) (y x : nat) (s : SampleState) :
  (size (colorHistogram s) <= totalPixels s)%nat →
  (size (colorHistogram (sample_pixel img y s x)) <= totalPixels (sample_pixel img y s x))%nat.
Proof.
  intros Hs. unfold sample_pixel. simpl. rewrite map_size_insert.
  destruct (colorHistogram s !! _); unfold id; lia.
Qed.

(** X17. The number of distinct colours never exceeds the number of
    samples. *)
Theorem uniqueColors_at_most_samples (img : RawImage) :
  (uniqueColors (features_of (sample_image img)) <= totalPixels (sample_image img))%nat.
Proof.
  change (size (colorHistogram (sample_image img)) <= totalPixels (sample_image img))%nat.
  unfold sample_image. apply foldl_preserves.
  - simpl. rewrite map_size_empty. lia.
  - intros s y _ Hs. unfold sample_row. apply foldl_preserves; [done|].
    intros s' x _ Hs'. by apply sample_pixel_size.
Qed.

Lemma histogram_total_insert (h : gmap ColorKey N) (key : ColorKey) :
  histogram_total (<[key := (default 0 (h !! key) + 1)%N]> h) = (histogram_total h + 1)%N.
Proof.
  unfold histogram_total.
  assert (Hcomm : ∀ (m : gmap ColorKey N) (j1 j2 : ColorKey) (z1 z2 y : N),
             j1 ≠ j2 → m !! j1 = Some z1 → m !! j2 = Some z2 →
             (z1 + (z2 + y) = z2 + (z1 + y))%N) by (intros; lia).
  destruct (h !! key) as [c|] eqn:Hk; simpl.
  - rewrite <- insert_delete_eq.
    rewrite map_fold_insert_L; [|by eauto|by rewrite lookup_delete_eq].
    rewrite (map_fold_delete_L _ _ key c h); [lia|by eauto|done].
  - rewrite map_fold_insert_L; [lia|by eauto|done].
Qed.

(** X18. The counts held by the colour histogram add up to the number of
    samples. *)
Theorem histogram_counts_every_sample (img : RawImage) :
  histogram_total (colorHistogram (sample_image img))
  = N.of_nat (totalPixels (sample_image img)).
Proof.
  unfold sample_image. apply foldl_preserves.
  - reflexivity.
  - intros s y _ Hs. unfold sample_row. apply foldl_preserves; [done|].
    intros s' x _ Hs'. unfold sample_pixel. simpl.
    rewrite histogram_total_insert, Hs'. lia.
Qed.

(** X19. An image with at most 50 samples (up to 200 by 100 pixels, say) has
    too few colours for the iron, rainbow and high-contrast branches: its
    verdict is the near-grayscale branch alone. *)
Theorem few_samples_only_grayscale (img : RawImage) :
  (((info_height img + 19) `div` 20) * ((info_width img + 19) `div` 20) <= 50)%nat →
  let f := features_of (sample_image img) in
  hasModerateColors f = false
  ∧ hasColorGradient f = false
  ∧ nat_gt (uniqueColors f) 100 = false
  ∧ thermalColorPattern f = nat_lt (uniqueColors f) 50 && js_lt (avgColorVariance f) 10.
Proof.
  intros Hsmall f.
  pose proof (uniqueColors_at_most_samples img) as Hle.
  rewrite totalPixels_grid in Hle. fold f in Hle.
  assert (Hmod : nat_gt (uniqueColors f) 50 = false)
    by (unfold nat_gt; apply Nat.ltb_ge; lia).
  assert (Hhundred : nat_gt (uniqueColors f) 100 = false)
    by (unfold nat_gt; apply Nat.ltb_ge; lia).
  unfold thermalColorPattern, hasModerateColors, hasColorGradient.
  rewrite Hmod, Hhundred. simpl. rewrite !andb_false_r. simpl.
  split_and!; try done. by rewrite orb_false_r.
Qed.

Lemma few_samples_only_grayscale_witness :
  thermalColorPattern (features_of (sample_image black_image))
  = nat_lt (uniqueColors (features_of (sample_image black_image))) 50
    && js_lt (avgColorVariance (features_of (sample_image black_image))) 10.
Proof.
  destruct (few_samples_only_grayscale black_image) as (_ & _ & _ & Hpat).
  - vm_compute. lia.
  - exact Hpat.
Defined.

Lemma foldl_reaches {A B : Type} (P : A → Prop) (f : A → B → A) (l : list B) (b : B) :
  b ∈ l → (∀ a, P (f a b)) → (∀ a b', P a → P (f a b')) → ∀ a, P (foldl f a l).
Proof.
  intros Hb Hhit Hkeep. induction l as [|b' l IH]; intros a.
  - by apply elem_of_nil in Hb.
  - simpl. apply elem_of_cons in Hb as [<- | Hb].
    + apply foldl_preserves; [apply Hhit|]. intros a' b'' _. apply Hkeep.
    + by apply IH.
Qed.

Lemma sample_pixel_outside (img : RawImage) (y x : nat) (s : SampleState) :
  reads_outside img y x → colorVariance (sample_pixel img y s x) = S754_nan.
Proof.
  unfold reads_outside. intros Hout. unfold sample_pixel. simpl.
  assert (Hb : read_channel (pixelArray img)
                 ((y * info_width img + x) * info_channels img + 2) = None).
  { unfold read_channel. by rewrite lookup_ge_None_2. }
  rewrite Hb. unfold pixel_variance.
  change (SFabs (b64_sub (chan_num None) ?gray)) with S754_nan.
  by rewrite !b64_add_nan_r.
Qed.

Lemma sample_pixel_nan (img : RawImage) (y x : nat) (s : SampleState) :
  colorVariance s = S754_nan → colorVariance (sample_pixel img y s x) = S754_nan.
Proof. intros Hs. unfold sample_pixel. simpl. by rewrite Hs. Qed.

(** X20. When a sample reads past the end of the buffer (as the last sample
    of an image with fewer than three channels can), the accumulated variance
    is not a number from then on, and the image never matches the thermal
    pattern: it is classified thermal exactly when demo mode is set. *)
Theorem read_outside_buffer_never_thermal (img : RawImage) (y x : nat) :
  y ∈ stride_positions (info_height img) →
  x ∈ stride_positions (info_width img) →
  reads_outside img y x →
  let f := features_of (sample_image img) in
  colorVariance (sample_image img) = S754_nan
  ∧ avgColorVariance f = None
  ∧ thermalColorPattern f = false
  ∧ ∀ demoMode imageType, isThermalImage demoMode imageType f = demoMode.
Proof.
  intros Hy Hx Hout f.
  assert (Hnan : colorVariance (sample_image img) = S754_nan).
  { unfold sample_image.
    apply (foldl_reaches (λ s, colorVariance s = S754_nan) (sample_row img) _ y Hy).
    - intros s. unfold sample_row.
      apply (foldl_reaches (λ s, colorVariance s = S754_nan) (sample_pixel img y) _ x Hx).
      + intros s'. by apply sample_pixel_outside.
      + intros s' x' Hs'. by apply sample_pixel_nan.
    - intros s y' Hs. unfold sample_row. apply foldl_preserves; [done|].
      intros s' x' _ Hs'. by apply sample_pixel_nan. }
  assert (Havg : avgColorVariance f = None) by (simpl; unfold average; by rewrite Hnan).
  assert (Hpat : thermalColorPattern f = false).
  { unfold thermalColorPattern, hasThermalBias, hasColorGradient, hasHighColorVariance.
    rewrite Havg. simpl. unfold bias. rewrite Hnan. simpl.
    by rewrite !andb_false_r. }
  split_and!; try done.
  intros demoMode imageType. unfold isThermalImage. rewrite Hpat.
  by rewrite !andb_false_r, !orb_false_r.
Qed.

(** A one-pixel image with a single channel: the green and blue reads fall
    outside the buffer. *)
Lemma read_outside_buffer_never_thermal_witness :
  thermalColorPattern
    (features_of (sample_image {| pixelArray := [Byte.x80]; info_width := 1;
                                  info_height := 1; info_channels := 1 |})) = false.
Proof.
  destruct (read_outside_buffer_never_thermal
              {| pixelArray := [Byte.x80]; info_width := 1; info_height := 1;
                 info_channels := 1 |} 0 0) as (_ & _ & Hpat & _).
  - vm_compute. apply list_elem_of_here.
  - vm_compute. apply list_elem_of_here.
  - vm_compute. lia.
  - exact Hpat.
Defined.

Lemma length_filter_disjoint {A : Type} (P Q : A → Prop)
    `{!∀ x, Decision (P x)} `{!∀ x, Decision (Q x)} (l : list A) :
  (∀ x, P x → Q x → False) →
  (length (filter P l) + length (filter Q l) <= length l)%nat.
Proof.
  intros Hdisj. induction l as [|x l IH]; [done|].
  rewrite !filter_cons. destruct (decide (P x)), (decide (Q x)); simpl; try lia.
  exfalso. eauto.
Qed.

Lemma dominant_disjoint (key : ColorKey) :
  red_dominant key = true → blue_dominant key = true → False.
Proof.
  destruct key as [[r g] b]. unfold red_dominant, blue_dominant, level_gt.
  destruct r as [r|], g as [g|], b as [b|]; simpl; try done.
  rewrite !andb_true_iff, !N.ltb_lt. lia.
Qed.

(** X21. The two bias fractions are shares of one histogram: each is at
    least 0 and together they are at most 1. *)
Theorem bias_fractions_bounded (s : SampleState) :
  let f := features_of s in
  (0 <= redBias f)%Q ∧ (0 <= blueBias f)%Q ∧ (redBias f + blueBias f <= 1)%Q.
Proof.
  simpl. unfold bias.
  destruct (b64_gt (colorVariance s) (S754_zero false)); [|by split_and!].
  set (keys := histogram_keys (colorHistogram s)).
  set (reds := length (filter (λ k, red_dominant k = true) keys)).
  set (blues := length (filter (λ k, blue_dominant k = true) keys)).
  assert (Hsize : size (colorHistogram s) = length keys).
  { unfold keys, histogram_keys. by rewrite length_fmap, length_map_to_list. }
  assert (Hsum : (reds + blues <= length keys)%nat).
  { apply length_filter_disjoint. intros k. apply dominant_disjoint. }
  rewrite Hsize.
  destruct (length keys) as [|n] eqn:Hn.
  - assert (reds = 0%nat) as -> by lia. assert (blues = 0%nat) as -> by lia.
    split_and!; by vm_compute.
  - assert (Hpos : (0 < inject_Z (Z.of_nat (S n)))%Q).
    { change 0%Q with (inject_Z 0). rewrite <- Zlt_Qlt. lia. }
    assert (Hr : (0 <= inject_Z (Z.of_nat reds))%Q).
    { change 0%Q with (inject_Z 0). rewrite <- Zle_Qle. lia. }
    assert (Hb : (0 <= inject_Z (Z.of_nat blues))%Q).
    { change 0%Q with (inject_Z 0). rewrite <- Zle_Qle. lia. }
    assert (Hrb : (inject_Z (Z.of_nat reds) + inject_Z (Z.of_nat blues)
                   <= inject_Z (Z.of_nat (S n)))%Q).
    { rewrite <- inject_Z_plus, <- Zle_Qle. lia. }
    split_and!.
    + apply Qle_shift_div_l; [done|]. by rewrite Qmult_0_l.
    + apply Qle_shift_div_l; [done|]. by rewrite Qmult_0_l.
    + assert (Hadd :
        (inject_Z (Z.of_nat reds) / inject_Z (Z.of_nat (S n))
         + inject_Z (Z.of_nat blues) / inject_Z (Z.of_nat (S n))
         == (inject_Z (Z.of_nat reds) + inject_Z (Z.of_nat blues))
            / inject_Z (Z.of_nat (S n)))%Q).
      { field. intros Hz. rewrite Hz in Hpos. by apply Qlt_irrefl in Hpos. }
      rewrite Hadd. apply Qle_shift_div_r; [done|]. by rewrite Qmult_1_l.
Qed.

Lemma grey_key_elem (l : N) : (l < 8)%N → (Some l, Some l, Some l) ∈ grey_keys.
Proof.
  intros Hl. unfold grey_keys. rewrite elem_of_list_to_set, list_elem_of_fmap.
  exists l. split; [done|].
  assert (Hcases : l = 0%N ∨ l = 1%N ∨ l = 2%N ∨ l = 3%N ∨ l = 4%N ∨ l = 5%N
                   ∨ l = 6%N ∨ l = 7%N) by lia.
  destruct Hcases as [-> | [-> | [-> | [-> | [-> | [-> | [-> | ->]]]]]]];
    repeat first [apply list_elem_of_here | apply list_elem_of_further].
Qed.

Lemma read_channel_bounded (l : list Byte.byte) (idx : nat) (c : N) :
  read_channel l idx = Some c → (c `div` 32 < 8)%N.
Proof.
  unfold read_channel. intros Hc. apply fmap_Some in Hc as (b & _ & ->).
  pose proof (Byte.to_N_bounded b) as Hb.
  apply N.Div0.div_lt_upper_bound. lia.
Qed.

Lemma sample_pixel_grey_keys (img : RawImage) (y x : nat) (s : SampleState) :
  dom (colorHistogram s) ⊆ grey_keys → grey_at img y x →
  dom (colorHistogram (sample_pixel img y s x)) ⊆ grey_keys.
Proof.
  intros Hs (c & Hr & Hg & Hb). unfold sample_pixel. simpl.
  rewrite Hr, Hg, Hb, dom_insert_L. simpl.
  apply union_least; [|done]. apply singleton_subseteq_l.
  apply grey_key_elem. by eapply read_channel_bounded.
Qed.

(** X22. An image whose samples are all grey (the three channels equal), of
    any size, has at most 8 colours and a zero average variance, and so
    always matches the thermal pattern: it is classified thermal unless it is
    declared visual without demo mode. *)
Theorem grey_image_matches_pattern (img : RawImage) :
  (0 < info_height img)%nat → (0 < info_width img)%nat →
  (∀ y x, y ∈ stride_positions (info_height img) →
          x ∈ stride_positions (info_width img) → grey_at img y x) →
  let f := features_of (sample_image img) in
  (uniqueColors f <= 8)%nat
  ∧ thermalColorPattern f = true
  ∧ ∀ demoMode imageType,
      isThermalImage demoMode imageType f
      = demoMode || negb (String.eqb imageType "visual").
Proof.
  intros Hh Hw Hgrey f.
  assert (Hkeys : dom (colorHistogram (sample_image img)) ⊆ grey_keys).
  { unfold sample_image. apply foldl_preserves.
    - simpl. rewrite dom_empty_L. apply empty_subseteq.
    - intros s y Hy Hs. unfold sample_row. apply foldl_preserves; [done|].
      intros s' x Hx Hs'. apply sample_pixel_grey_keys; [done|]. by apply Hgrey. }
  assert (Hcolours : (uniqueColors f <= 8)%nat).
  { change (size (colorHistogram (sample_image img)) <= 8)%nat.
    rewrite <- size_dom. apply subseteq_size in Hkeys.
    replace (size grey_keys) with 8%nat in Hkeys by (by vm_compute). done. }
  destruct (grey_image_zero_variance img Hgrey) as (sign & Hzero).
  assert (Hsamples : totalPixels (sample_image img) ≠ 0%nat).
  { rewrite totalPixels_grid.
    pose proof (Nat.div_mod_eq (info_height img + 19) 20).
    pose proof (Nat.mod_upper_bound (info_height img + 19) 20 ltac:(lia)).
    pose proof (Nat.div_mod_eq (info_width img + 19) 20).
    pose proof (Nat.mod_upper_bound (info_width img + 19) 20 ltac:(lia)).
    nia. }
  assert (Hlow : js_lt (avgColorVariance f) 10 = true).
  { simpl. unfold average. by rewrite Hzero, (b64_div_zero_count sign _ Hsamples). }
  assert (Hpat : thermalColorPattern f = true).
  { unfold thermalColorPattern. rewrite Hlow.
    replace (nat_lt (uniqueColors f) 50) with true
      by (symmetry; apply nat_lt_true; lia).
    simpl. by rewrite orb_true_r. }
  split_and!; try done.
  intros demoMode imageType. unfold isThermalImage. rewrite Hpat, !andb_true_r.
  destruct (String.eqb imageType "thermal") eqn:Ht; [|by rewrite orb_false_r].
  apply String.eqb_eq in Ht as ->. by destruct demoMode.
Qed.

Lemma grey_image_matches_pattern_witness :
  thermalColorPattern (features_of (sample_image black_image)) = true.
Proof.
  destruct (grey_image_matches_pattern black_image) as (_ & Hpat & _).
  - simpl. lia.
  - simpl. lia.
  - intros y x Hy Hx. apply list_elem_of_singleton in Hy as ->.
    apply list_elem_of_singleton in Hx as ->. exists 0%N. by vm_compute.
  - exact Hpat.
Defined.

(** ** The client *)

Lemma POST_status_cases (store : gmap string RateEntry) (env : Env) (request : Request) :
  status (response (POST store env request)) = 200
  ∨ status (response (POST store env request)) = 400
  ∨ status (response (POST store env request)) = 429
  ∨ status (response (POST store env request)) = 500.
Proof.
  unfold POST.
  destruct (rate_limit_check _ _ _) as [[r|] st']; simpl; [auto|].
  destruct (analyze env request _) as [r a evs | m a evs] eqn:Ha; simpl; [|auto].
  apply analyze_status in Ha as [-> | ->]; auto.
Qed.

(** X23. [detectHotspots] hands the body to its caller exactly when the
    handler answered 200 (the full answer, the not-thermal answer or the
    fallback); for a 400, a 429 or a 500 it raises the one fixed error, so
    the message and the [retryAfter] of the response do not reach the
    caller. *)
Theorem detectHotspots_outcome (store : gmap string RateEntry) (env : Env)
    (forwarded : option string) (image : File) (imageType : option string) :
  let r := response (POST store env (detectHotspots_request forwarded image imageType)) in
  match detectHotspots store env forwarded image imageType with
  | Ok b => status r = 200 ∧ b = body r
  | Throws message =>
      message = "Hotspot detection failed"%string
      ∧ (status r = 400 ∨ status r = 429 ∨ status r = 500)
  end.
Proof.
  intros r. unfold detectHotspots. fold r. unfold response_ok.
  destruct (POST_status_cases store env
              (detectHotspots_request forwarded image imageType)) as [H | [H | [H | H]]];
    fold r in H; rewrite H; simpl; auto.
Qed.

(** X24. Through [detectHotspots] demo mode is never set, so an image sent
    as visual never reaches the inference service, and a body handed back
    for it is the not-thermal answer. *)
Theorem detectHotspots_visual_skips_inference (store : gmap string RateEntry) (env : Env)
    (forwarded : option string) (image : File) (imageType : option string) :
  imageType = Some "visual"%string →
  vision_calls (events (POST store env (detectHotspots_request forwarded image imageType)))
  = []
  ∧ ∀ b, detectHotspots store env forwarded image imageType = Ok b →
      b = ShortBody [] "none" 0.95
            {| sm_totalHotspots := 0; sm_maxTemperature := None; sm_affectedArea := 0;
               sm_message := "Image does not appear to be a thermal image";
               sm_error := None |}.
Proof.
  intros ->. unfold detectHotspots, POST.
  destruct (rate_limit_check _ _ _) as [[r|] st']; simpl; [done|].
  set (request := detectHotspots_request forwarded image (Some "visual"%string)).
  destruct (analyze_cases env request (initial_auditLog env (clientIp_of request)))
    as [(msg & a' & evs & -> & Hevs) | [(m & a' & Ha)
        | (fd & file & buffer & metadata & raw & a' & Hreach & ->)]]; simpl.
  - destruct (console_errors_only evs Hevs) as [_ ->]. done.
  - rewrite Ha. done.
  - assert (Hfd : fd = {| form_image := Some image;
                          form_imageType := Some "visual"%string;
                          form_demoMode := None |}).
    { destruct Hreach as [Hform _ _ _ _ _ _]. simpl in Hform. by injection Hform. }
    assert (Hcl : classification fd raw = false)
      by (apply declared_visual_not_thermal; by rewrite Hfd).
    rewrite (detect_not_thermal env a' fd buffer (default 0 (meta_width metadata))
               (default 0 (meta_height metadata)) raw Hcl).
    simpl. split; [done|]. by intros b [= <-].
Qed.

Lemma detectHotspots_visual_skips_inference_witness :
  detectHotspots ∅ (sample_env black_image (Throws "not called") 1000) None sample_file
    (Some "visual"%string)
  = Ok (ShortBody [] "none" 0.95
          {| sm_totalHotspots := 0; sm_maxTemperature := None; sm_affectedArea := 0;
             sm_message := "Image does not appear to be a thermal image";
             sm_error := None |}).
Proof.
  destruct (detectHotspots_visual_skips_inference ∅
              (sample_env black_image (Throws "not called") 1000) None sample_file
              (Some "visual"%string) eq_refl) as [_ Hbody].
  destruct (detectHotspots _ _ _ _ _) as [b|m] eqn:Hd; [|by vm_compute in Hd].
  by rewrite (Hbody b eq_refl).
Defined.

(** ** The assembled answer and the checks before it *)


